(** * Birdnest NDZ dashboard: geofence distance, drone classification and
      the memoised query layer of [app.py]

    The development follows the source top-down:

    - [Py]: the fragment of Python the program runs on: exceptions as an
      error monad, [float] as IEEE binary64 (Rocq's primitive floats),
      the arithmetic operators used by [distance_from_nest_in_meter];
    - [Schema]: the [Query] enumeration, the two ORM classes and their
      [to_dict];
    - [Geofence]: [CENTER_X], [CENTER_Y], [RADIUS] and
      [distance_from_nest_in_meter];
    - [Frame]: the data frames of the main loop (row labels, boolean masks,
      column selection) and the statements of lines 179-213;
    - [Memo]: [string_to_stmt_factory], [run_query] and the
      [st.experimental_memo(ttl=10)] wrapper around it. *)

From Stdlib Require Import ZArith List Bool Floats Permutation.
From stdpp Require Import gmap strings list fin_maps.

(** ** Python: exceptions, floats, operators *)

Module Py.

(** The exceptions the modelled code can raise.  [Exception msg] is the
    [raise Exception("Invalid Query")] of [string_to_stmt_factory]; the others
    are raised by the interpreter: [TypeError] by arithmetic on [None],
    [OverflowError] by [**] on floats, [ValueError] by [math.sqrt] on a
    negative number, [ZeroDivisionError] by [/]; and by pandas:
    [ValueError] by setting a column from a frame without columns and by a
    mask that holds a missing value, [KeyError] by a selection of labels
    that the frame does not have. *)
Inductive exn : Type :=
| Exception (msg : string)
| TypeError
| OverflowError
| ValueError
| ZeroDivisionError
| KeyError.

Inductive result (A : Type) : Type :=
| Return (a : A)
| Raise (e : exn).

Arguments Return {A} a.
Arguments Raise {A} e.

Definition bind {A B : Type} (m : result A) (k : A -> result B) : result B :=
  match m with
  | Return a => k a
  | Raise e => Raise e
  end.

#[export] Instance result_ret : MRet result := @Return.
#[export] Instance result_bind : MBind result :=
  fun A B k m => bind m k.

Definition returns {A : Type} (m : result A) : bool :=
  match m with Return _ => true | Raise _ => false end.

(** A numeric cell as Python sees it: [None] or a [float].  Python's [float]
    is IEEE 754 binary64; so is Rocq's primitive [float], with the same
    round-to-nearest-even operations. *)
Inductive number : Type :=
| PyNone
| PyFloat (f : float).

(** [float(n)] for a Python [int]: the nearest binary64 value. *)
Definition float_of_int (n : Z) : float :=
  SF2Prim (binary_normalize prec emax n 0 false).

(** [x - n] with [n] an [int]: [None - n] raises [TypeError]; a float
    operand converts [n] to float and subtracts. *)
Definition sub_int (x : number) (n : Z) : result float :=
  match x with
  | PyNone => Raise TypeError
  | PyFloat f => Return (f - float_of_int n)%float
  end.

(** [pow_overflows a]: the square of the finite float [a] is out of range. *)
Definition pow_overflows (a : float) : bool :=
  is_infinity (a * a)%float && negb (is_infinity a).

(** [a ** 2] on a float.  CPython's [float_pow] returns nan for a nan base
    and [+inf] for an infinite one, and otherwise calls the C library's
    [pow]; a result that overflows is reported as [OverflowError].  The
    library's square is taken here as the rounded product [a * a].  A C
    library may be one unit in the last place away from it, so the exact
    value of the distance is stated further down for
    [Geofence.distance_with], which leaves the square open. *)
Definition pow2 (a : float) : result float :=
  if pow_overflows a then Raise OverflowError else Return (a * a)%float.

(** [math.sqrt(v)]: [ValueError] ("math domain error") below zero, the IEEE
    square root otherwise (nan for nan, [-0.0] for [-0.0]). *)
Definition math_sqrt (v : float) : result float :=
  if (v <? 0)%float then Raise ValueError else Return (sqrt v).

(** [v / n] with [n] an [int]: true division by [float(n)]. *)
Definition truediv_int (v : float) (n : Z) : result float :=
  if (n =? 0)%Z then Raise ZeroDivisionError
  else Return (v / float_of_int n)%float.

End Py.

Export Py.

(** ** The geofence calculator *)

Module Geofence.

Definition CENTER_X : Z := 250000.
Definition CENTER_Y : Z := 250000.
Definition RADIUS : Z := 100000.

(** [math.sqrt((x - CENTER_X) ** 2 + (y - CENTER_Y) ** 2) / 1000], operands
    evaluated left to right. *)
Definition distance_from_nest_in_meter (x y : number) : result float :=
  dx ← sub_int x CENTER_X;
  sx ← pow2 dx;
  dy ← sub_int y CENTER_Y;
  sy ← pow2 dy;
  r ← math_sqrt (sx + sy)%float;
  truediv_int r 1000.

(** The same expression with [** 2] left open: [square a] is what the
    interpreter gives for [a ** 2], a float or an exception. *)
Definition distance_with (square : float -> result float) (x y : number)
  : result float :=
  dx ← sub_int x CENTER_X;
  sx ← square dx;
  dy ← sub_int y CENTER_Y;
  sy ← square dy;
  r ← math_sqrt (sx + sy)%float;
  truediv_int r 1000.

(** The formula of the specification, over binary64: the Euclidean distance
    between two points of the plane, taken from the centre of the zone and
    divided by the scale factor. *)
Definition euclidean_distance (p q : float * float) : float :=
  sqrt ((p.1 - q.1) * (p.1 - q.1) + (p.2 - q.2) * (p.2 - q.2))%float.

Definition center : float * float := (250000%float, 250000%float).
Definition scale_factor : float := 1000%float.

Definition geofence_distance (x y : float) : float :=
  (euclidean_distance (x, y) center / scale_factor)%float.

(** The point opposite to [x] through the centre coordinate [c]:
    [2 * c - x], the product taken on [int]s. *)
Definition reflect (c : Z) (x : float) : float :=
  (float_of_int (2 * c) - x)%float.

End Geofence.

Export Geofence.

(** ** The relations and the query kinds *)

Module Schema.

(** [class Query(Enum)]. *)
Inductive Query : Type := DRONES | PILOTS.


(** A key as the driver hands it over.  [Drones.violated_pilot_id] is
    declared [INTEGER] and references the [VARCHAR] column
    [violated_pilots.pilot_id], so both shapes occur. *)
Inductive key : Type :=
| KInt (n : Z)
| KStr (s : string).

(** A [DATETIME] value, as a count of time units. *)
Definition datetime := Z.

(** A row of [violated_pilots].  Nullable columns are options ([None] is
    Python's [None]); [FLOAT] columns are [number]s.  The dictionary built
    by [to_dict] has one entry per column under the column's name and is
    modelled by the same record. *)
Module ViolatedPilots.
Record t : Type := {
  pilot_id : string;
  first_name : option string;
  last_name : option string;
  phone_number : option string;
  email : option string;
  created_dt : option datetime;
  last_violation_at : option datetime;
  last_violation_x : number;
  last_violation_y : number;
  nearest_violation_x : number;
  nearest_violation_y : number
}.

Definition to_dict (self : t) : t := {|
  pilot_id := pilot_id self;
  first_name := first_name self;
  last_name := last_name self;
  phone_number := phone_number self;
  email := email self;
  created_dt := created_dt self;
  last_violation_at := last_violation_at self;
  last_violation_x := last_violation_x self;
  last_violation_y := last_violation_y self;
  nearest_violation_x := nearest_violation_x self;
  nearest_violation_y := nearest_violation_y self
|}.

(** The row with its four [FLOAT] cells replaced. *)
Definition with_floats (lx ly nx ny : number) (self : t) : t := {|
  pilot_id := pilot_id self;
  first_name := first_name self;
  last_name := last_name self;
  phone_number := phone_number self;
  email := email self;
  created_dt := created_dt self;
  last_violation_at := last_violation_at self;
  last_violation_x := lx;
  last_violation_y := ly;
  nearest_violation_x := nx;
  nearest_violation_y := ny
|}.
End ViolatedPilots.

(** A row of [drones].  [is_violating_ndz] is the [BOOLEAN] of the relation;
    the column is not declared [nullable=False], so the cell is [None] or a
    [bool], and [to_dict] passes it on as it is. *)
Module Drones.
Record t : Type := {
  serial_number : string;
  manufacturer : option string;
  mac : option string;
  ipv4 : option string;
  ipv6 : option string;
  firmware : option string;
  position_x : number;
  position_y : number;
  altitude : number;
  is_violating_ndz : option bool;
  violated_pilot_id : option key;
  created_at : option datetime;
  updated_at : option datetime
}.

Definition to_dict (self : t) : t := {|
  serial_number := serial_number self;
  manufacturer := manufacturer self;
  mac := mac self;
  ipv4 := ipv4 self;
  ipv6 := ipv6 self;
  firmware := firmware self;
  position_x := position_x self;
  position_y := position_y self;
  altitude := altitude self;
  is_violating_ndz := is_violating_ndz self;
  violated_pilot_id := violated_pilot_id self;
  created_at := created_at self;
  updated_at := updated_at self
|}.

(** The row with its three [FLOAT] cells replaced. *)
Definition with_floats (x y z : number) (self : t) : t := {|
  serial_number := serial_number self;
  manufacturer := manufacturer self;
  mac := mac self;
  ipv4 := ipv4 self;
  ipv6 := ipv6 self;
  firmware := firmware self;
  position_x := x;
  position_y := y;
  altitude := z;
  is_violating_ndz := is_violating_ndz self;
  violated_pilot_id := violated_pilot_id self;
  created_at := created_at self;
  updated_at := updated_at self
|}.
End Drones.

End Schema.

Export Schema.

(** ** Data frames and the main loop's processing (lines 179-213) *)

Module Frame.

(** A frame: its rows in order, each under its index label. *)
Definition frame (A : Type) : Type := list (nat * A).

Definition index {A : Type} (df : frame A) : list nat := map fst df.

(** [df[mask]] with [mask] a boolean column computed from [df] itself: the
    rows whose mask entry is [True], labels kept. *)
Definition loc_mask {A : Type} (mask : A -> bool) (df : frame A) : frame A :=
  List.filter (fun r => mask r.2) df.

(** [df[[c1, ..., cn]]]: the listed columns of every row, labels kept. *)
Definition columns {A B : Type} (cols : A -> B) (df : frame A) : frame B :=
  map (fun r => (r.1, cols r.2)) df.

(** [df.apply(f, axis=1)]: [f] on each row from the first to the last; the
    first exception ends the call.  On a frame without rows [f] is called
    on no row and what comes back is an empty frame; what the two callers
    do with it is in [annotate_drones] and [annotate_pilots]. *)
Fixpoint apply {A B : Type} (f : A -> result B) (df : frame A)
  : result (frame B) :=
  match df with
  | [] => Return []
  | (i, r) :: df' =>
      v ← f r;
      rest ← apply f df';
      Return ((i, v) :: rest)
  end.

(** [pd.isna] on a cell that holds a key or [None]. *)
Definition isna {A : Type} (v : option A) : bool :=
  match v with None => true | Some _ => false end.

Definition is_float (v : number) : bool :=
  match v with PyFloat _ => true | PyNone => false end.

(** How [pd.DataFrame] types a [FLOAT] column of the records: when the
    column holds at least one float it becomes a float column and every
    [None] in it becomes nan; a column of [None]s only is kept as it is. *)
Definition infer_float (col : list number) (v : number) : number :=
  match v with
  | PyFloat f => PyFloat f
  | PyNone => if existsb is_float col then PyFloat nan else PyNone
  end.

(** [pd.DataFrame(drones)]: one row per record, labelled 0, 1, 2, ..., the
    columns being the keys of the records.  From no record at all pandas
    gets a frame without rows and without columns. *)
Definition DataFrame_drones (drones : list Drones.t) : frame Drones.t :=
  let xs := map Drones.position_x drones in
  let ys := map Drones.position_y drones in
  let zs := map Drones.altitude drones in
  imap (fun i d =>
          (i, Drones.with_floats (infer_float xs (Drones.position_x d))
                                 (infer_float ys (Drones.position_y d))
                                 (infer_float zs (Drones.altitude d)) d))
       drones.

(** [pd.DataFrame(pilots)]. *)
Definition DataFrame_pilots (pilots : list ViolatedPilots.t)
  : frame ViolatedPilots.t :=
  let lxs := map ViolatedPilots.last_violation_x pilots in
  let lys := map ViolatedPilots.last_violation_y pilots in
  let nxs := map ViolatedPilots.nearest_violation_x pilots in
  let nys := map ViolatedPilots.nearest_violation_y pilots in
  imap (fun i p =>
          (i, ViolatedPilots.with_floats
                (infer_float lxs (ViolatedPilots.last_violation_x p))
                (infer_float lys (ViolatedPilots.last_violation_y p))
                (infer_float nxs (ViolatedPilots.nearest_violation_x p))
                (infer_float nys (ViolatedPilots.nearest_violation_y p)) p))
       pilots.

(** A row of [drones_df] once the distance column is set. *)
Record drones_row : Type := {
  drone : Drones.t;
  current_distance_from_nest_in_meter : float
}.

(** Lines 180-182.  On the frame built from no record [apply] gives an
    empty frame, not a column, and setting it as the new column raises
    [ValueError]. *)
Definition annotate_drones (df : frame Drones.t) : result (frame drones_row) :=
  match df with
  | [] => Raise ValueError
  | _ :: _ =>
      apply (fun row =>
               d ← distance_from_nest_in_meter (Drones.position_x row)
                                               (Drones.position_y row);
               Return {| drone := row;
                         current_distance_from_nest_in_meter := d |})
            df
  end.

(** A row of [pilots_df] once both distance columns are set. *)
Record pilots_row : Type := {
  pilot : ViolatedPilots.t;
  last_violation_distance_in_meter : float;
  nearest_violation_distance_in_meter : float
}.

(** Lines 195-201: the first column is computed for every row, then the
    second.  On the frame built from no record the first assignment raises
    [ValueError], as in [annotate_drones]. *)
Definition annotate_pilots (df : frame ViolatedPilots.t)
  : result (frame pilots_row) :=
  match df with
  | [] => Raise ValueError
  | _ :: _ =>
      df1 ← apply (fun row =>
                     d ← distance_from_nest_in_meter
                           (ViolatedPilots.last_violation_x row)
                           (ViolatedPilots.last_violation_y row);
                     Return (row, d))
                  df;
      apply (fun rd =>
               d ← distance_from_nest_in_meter
                     (ViolatedPilots.nearest_violation_x rd.1)
                     (ViolatedPilots.nearest_violation_y rd.1);
               Return {| pilot := rd.1;
                         last_violation_distance_in_meter := rd.2;
                         nearest_violation_distance_in_meter := d |})
            df1
  end.

(** How [pd.DataFrame] types the column [is_violating_ndz]: a column of
    [bool]s when every record has its flag, a column of Python objects as
    soon as one flag is [None].  A selection of rows keeps the type of the
    column it is taken from. *)
Definition flag_is_object (drones_df : frame drones_row) : bool :=
  existsb (fun r => isna (Drones.is_violating_ndz (drone r.2))) drones_df.

Definition is_True (v : option bool) : bool :=
  match v with Some true => true | _ => false end.

Definition is_False (v : option bool) : bool :=
  match v with Some false => true | _ => false end.

(** Line 210. *)
Definition bad_drones (drones_df : frame drones_row)
  : frame (number * number * option bool) :=
  columns (fun r => (Drones.position_x (drone r), Drones.position_y (drone r),
                     Drones.is_violating_ndz (drone r)))
          (loc_mask (fun r => isna (Drones.violated_pilot_id (drone r)))
                    drones_df).

(** Line 211: [bad_drones[bad_drones['is_violating_ndz']][[...]]].  A column
    of [bool]s is a mask.  A column of objects that holds a [None] is
    refused with [ValueError] ("Cannot mask with non-boolean array
    containing NA / NaN values"); one that holds [bool]s only, and at least
    one, is a mask; an empty one is read as an empty list of column labels,
    and selecting the two position columns from the frame without columns
    that this gives ends in [KeyError]. *)
Definition bad_currently_violating (drones_df : frame drones_row)
  : result (frame (number * number)) :=
  let bad := bad_drones drones_df in
  let selected :=
    columns (fun r => (r.1.1, r.1.2)) (loc_mask (fun r => is_True r.2) bad) in
  if flag_is_object drones_df then
    if existsb (fun r => isna r.2.2) bad then Raise ValueError
    else match bad with
         | [] => Raise KeyError
         | _ :: _ => Return selected
         end
  else Return selected.

(** Line 212: [bad_drones[~bad_drones['is_violating_ndz']][[...]]].  On a
    column of [bool]s [~] is the negation.  On a column of objects [~] is
    Python's [~] cell by cell: [TypeError] on [None], and the integers -2
    and -1 on [True] and [False], which pandas then reads as column labels:
    [KeyError]. *)
Definition bad_not_currently_violating (drones_df : frame drones_row)
  : result (frame (number * number)) :=
  let bad := bad_drones drones_df in
  if flag_is_object drones_df then
    if existsb (fun r => isna r.2.2) bad then Raise TypeError
    else Raise KeyError
  else Return (columns (fun r => (r.1.1, r.1.2))
                       (loc_mask (fun r => is_False r.2) bad)).

(** Line 213. *)
Definition good_drones (drones_df : frame drones_row)
  : frame (number * number) :=
  columns (fun r => (Drones.position_x (drone r), Drones.position_y (drone r)))
          (loc_mask (fun r => negb (isna (Drones.violated_pilot_id (drone r))))
                    drones_df).

(** The three position sets handed to the "Drone Positions" tab. *)
Record position_sets : Type := {
  currently_violating : frame (number * number);
  not_currently_violating : frame (number * number);
  linked : frame (number * number)
}.

(** Lines 210-213, one after the other. *)
Definition position_sets_of (drones_df : frame drones_row)
  : result position_sets :=
  a ← bad_currently_violating drones_df;
  b ← bad_not_currently_violating drones_df;
  Return {| currently_violating := a;
            not_currently_violating := b;
            linked := good_drones drones_df |}.

(** The names of the three sets, after the variables that hold them.  The
    specification calls them "currently violating, unlinked", "recently
    violating, not currently" and "attributed". *)
Inductive category : Type :=
| BadCurrentlyViolating
| BadNotCurrentlyViolating
| GoodDrones.

Definition series (c : category) (s : position_sets)
  : frame (number * number) :=
  match c with
  | BadCurrentlyViolating => currently_violating s
  | BadNotCurrentlyViolating => not_currently_violating s
  | GoodDrones => linked s
  end.

End Frame.

Export Frame.

(** ** The query layer: [string_to_stmt_factory], [run_query] and its memo *)

Module Memo.

(** What a caller can pass for [query]: the annotation [q: Query] is not
    enforced, so besides the two members any hashable value may arrive. *)
Inductive arg : Type :=
| Member (q : Query)
| Str (s : string)
| Int (n : Z)
| NoneArg.

#[export] Instance Query_eq_dec : EqDecision Query.
Proof. solve_decision. Defined.

#[export] Instance arg_eq_dec : EqDecision arg.
Proof. solve_decision. Defined.

Definition arg_encode (a : arg) : bool + (string + (Z + unit)) :=
  match a with
  | Member DRONES => inl true
  | Member PILOTS => inl false
  | Str s => inr (inl s)
  | Int n => inr (inr (inl n))
  | NoneArg => inr (inr (inr tt))
  end.

Definition arg_decode (c : bool + (string + (Z + unit))) : arg :=
  match c with
  | inl true => Member DRONES
  | inl false => Member PILOTS
  | inr (inl s) => Str s
  | inr (inr (inl n)) => Int n
  | inr (inr (inr tt)) => NoneArg
  end.

#[export] Instance arg_countable : Countable arg.
Proof.
  refine (inj_countable' arg_encode arg_decode _).
  intros [[]| | |]; reflexivity.
Defined.

(** The two statements the factory builds. *)
Inductive stmt : Type :=
| select_Drones
| select_ViolatedPilots.

(** [q == Query.DRONES] on an [Enum] without a mix-in type is identity of
    members: no string or number equals a member. *)
Definition string_to_stmt_factory (q : arg) : result stmt :=
  if decide (q = Member DRONES) then Return select_Drones
  else if decide (q = Member PILOTS) then Return select_ViolatedPilots
  else Raise (Exception "Invalid Query").

(** The backing store: the content of the two relations. *)
Record store : Type := {
  drones : list Drones.t;
  violated_pilots : list ViolatedPilots.t
}.

(** What [run_query] returns: a list of dictionaries, of one relation. *)
Inductive records : Type :=
| DroneDicts (l : list Drones.t)
| PilotDicts (l : list ViolatedPilots.t).

(** [session.execute(stmt).scalars().all()] followed by the [to_dict] map:
    one read of the backing store. *)
Definition execute (db : store) (s : stmt) : records :=
  match s with
  | select_Drones => DroneDicts (map Drones.to_dict (drones db))
  | select_ViolatedPilots =>
      PilotDicts (map ViolatedPilots.to_dict (violated_pilots db))
  end.

(** A time, in the units of [ttl] (seconds in the source). *)
Definition time := Z.

(** An entry of the memo: the value a call returned and when it was
    captured. *)
Record entry : Type := {
  value : records;
  captured_at : time
}.

(** The state the query layer works on: the memo of [run_query], keyed by
    its argument, and the log of the statements executed against the backing
    store, each with the time of the read. *)
Record state : Type := {
  cache : gmap arg entry;
  executed : list (time * stmt)
}.

Definition empty_state : state := {| cache := ∅; executed := [] |}.

(** The body of [run_query], as written: build the statement (which may
    raise), open a session, execute, close, convert.  The read is logged. *)
Definition run_query_body (now : time) (db : store) (query : arg)
    (log : list (time * stmt)) : result records * list (time * stmt) :=
  match string_to_stmt_factory query with
  | Raise e => (Raise e, log)
  | Return s => (Return (execute db s), log ++ [(now, s)])
  end.

(** [ttl=10]. *)
Definition ttl : Z := 10.

(** An entry is served while it is younger than [ttl]. *)
Definition fresh (now : time) (e : entry) : bool :=
  (now - captured_at e <? ttl)%Z.

(** [@st.experimental_memo(ttl=10) def run_query(query)]: "only rerun when
    the query changes or after 10 seconds".  A call finds the entry of its
    argument and returns its value when it is fresh; otherwise it runs the
    body and, when the body returns, stores the value under the argument
    with the current time.  A call whose body raises stores nothing. *)
Definition run_query (now : time) (db : store) (query : arg) (st : state)
  : result records * state :=
  let rerun :=
    match run_query_body now db query (executed st) with
    | (Return v, log) =>
        (Return v,
         {| cache := <[query := {| value := v; captured_at := now |}]> (cache st);
            executed := log |})
    | (Raise e, log) => (Raise e, {| cache := cache st; executed := log |})
    end in
  match cache st !! query with
  | Some e => if fresh now e then (Return (value e), st) else rerun
  | None => rerun
  end.

(** The capture time of the snapshot currently held for [query]. *)
Definition snapshot_timestamp (st : state) (query : arg) : option time :=
  captured_at <$> cache st !! query.

(** The states the program reaches: from the empty memo, by calls of
    [run_query] at any time, on any store, with any argument. *)
Inductive reachable : state -> Prop :=
| reachable_empty : reachable empty_state
| reachable_call now db query st :
    reachable st -> reachable (run_query now db query st).2.

End Memo.

Export Memo.

(** ** Vocabulary of the statements *)

(** A binary64 value that is not below zero: a zero of either sign, a
    positive finite number, [+inf], or nan. *)
Definition not_negative (s : spec_float) : Prop :=
  match s with
  | S754_zero _ | S754_nan => True
  | S754_infinity sg | S754_finite sg _ _ => sg = false
  end.

(** The square of [v - c] is in range (or [v] is [None]). *)
Definition within_range (c : Z) (v : number) : bool :=
  match v with
  | PyNone => true
  | PyFloat f => negb (pow_overflows (f - float_of_int c)%float)
  end.

(** The distance computed for a record whose squared offsets are in range:
    the geofence distance of its position, nan when a coordinate is
    missing. *)
Definition distance_or_missing (d : Drones.t) : float :=
  match Drones.position_x d, Drones.position_y d with
  | PyFloat x, PyFloat y => geofence_distance x y
  | _, _ => nan
  end.

(** The cell a frame holds for the cell [v] of a record, in a column that
    holds a number: the number, or nan for [None]. *)
Definition held_as (v cell : number) : Prop :=
  match v with
  | PyFloat f => cell = PyFloat f
  | PyNone => cell = PyFloat nan
  end.

(** The distance [d] shown for the position [(x, y)] of a record: what the
    function returns on the position when both coordinates are there, nan
    ("missing") when one is missing. *)
Definition distance_shown (x y : number) (d : float) : Prop :=
  match x, y with
  | PyFloat _, PyFloat _ => distance_from_nest_in_meter x y = Return d
  | _, _ => d = nan
  end.

(** The three columns of a row that lines 210-213 read. *)
Definition unlinked (r : drones_row) : bool :=
  isna (Drones.violated_pilot_id (drone r)).

Definition flag (r : drones_row) : option bool :=
  Drones.is_violating_ndz (drone r).

Definition position (r : drones_row) : number * number :=
  (Drones.position_x (drone r), Drones.position_y (drone r)).

(** The mask that, applied to [drones_df], gives the rows of a category. *)
Definition selects (c : category) (r : drones_row) : bool :=
  match c with
  | BadCurrentlyViolating => unlinked r && is_True (flag r)
  | BadNotCurrentlyViolating => unlinked r && is_False (flag r)
  | GoodDrones => negb (unlinked r)
  end.

(** The mask column of lines 211 and 212: the flags of the rows without
    pilot link. *)
Definition bad_flags (drones_df : frame drones_row) : list (option bool) :=
  map (fun r => r.2.2) (bad_drones drones_df).

(** The rows a mask selects, with their positions; and the three sets the
    three masks select. *)
Definition selected (c : category) (drones_df : frame drones_row)
  : frame (number * number) :=
  columns position (loc_mask (selects c) drones_df).

Definition selected_sets (drones_df : frame drones_row) : position_sets :=
  {| currently_violating := selected BadCurrentlyViolating drones_df;
     not_currently_violating := selected BadNotCurrentlyViolating drones_df;
     linked := selected GoodDrones drones_df |}.

(** Two labelled rows that carry the same label, the same
    [violated_pilot_id] and the same [is_violating_ndz]. *)
Definition same_link_and_flag (r1 r2 : nat * drones_row) : Prop :=
  r1.1 = r2.1
  /\ Drones.violated_pilot_id (drone r1.2) = Drones.violated_pilot_id (drone r2.2)
  /\ Drones.is_violating_ndz (drone r1.2) = Drones.is_violating_ndz (drone r2.2).

(** The row [r] shows the position, flag and pilot link of the record [d]. *)
Definition shows (d : Drones.t) (r : drones_row) : Prop :=
  Drones.position_x (drone r) = Drones.position_x d
  /\ Drones.position_y (drone r) = Drones.position_y d
  /\ Drones.is_violating_ndz (drone r) = Drones.is_violating_ndz d
  /\ Drones.violated_pilot_id (drone r) = Drones.violated_pilot_id d.

(** The statement built for a member of [Query]. *)
Definition stmt_of (q : Query) : stmt :=
  match q with DRONES => select_Drones | PILOTS => select_ViolatedPilots end.

(** The state after the body of [run_query] ran for the member [q] at [now]
    on the store [db]: one more read in the log, the entry of [q] replaced. *)
Definition refreshed (now : time) (db : store) (q : Query) (st : state) : state :=
  {| cache := <[Member q := {| value := execute db (stmt_of q);
                              captured_at := now |}]> (cache st);
     executed := executed st ++ [(now, stmt_of q)] |}.

(** No entry of [q] is fresh at [now]: the next call reruns the body. *)
Definition stale (now : time) (q : Query) (st : state) : Prop :=
  forall e, cache st !! Member q = Some e -> (ttl <= now - captured_at e)%Z.

(** ** Scenario data *)

Definition a_drone (serial : string) (x y : number) (flag : option bool)
    (link : option key) : Drones.t := {|
  Drones.serial_number := serial;
  Drones.manufacturer := None;
  Drones.mac := None;
  Drones.ipv4 := None;
  Drones.ipv6 := None;
  Drones.firmware := None;
  Drones.position_x := x;
  Drones.position_y := y;
  Drones.altitude := PyNone;
  Drones.is_violating_ndz := flag;
  Drones.violated_pilot_id := link;
  Drones.created_at := None;
  Drones.updated_at := None
|}.

(** [{id: D1, position: (250000, 250000), is_violating: true,
      violated_pilot_id: null}]. *)
Definition D1 : Drones.t :=
  a_drone "D1" (PyFloat 250000) (PyFloat 250000) (Some true) None.

(** [{id: D2, position: (350000, 250000), is_violating: false,
      violated_pilot_id: "P1"}]. *)
Definition D2 : Drones.t :=
  a_drone "D2" (PyFloat 350000) (PyFloat 250000) (Some false)
          (Some (KStr "P1")).

(** A drone at the origin of the plane, about 353.6 m from the nest and so
    outside the 100 m circle, whose stored flag says it is violating. *)
Definition D3 : Drones.t :=
  a_drone "D3" (PyFloat 0) (PyFloat 0) (Some true) None.

(** A drone whose [position_x] is NULL. *)
Definition D4 : Drones.t :=
  a_drone "D4" PyNone (PyFloat 250000) (Some false) None.

(** A drone without pilot link whose [is_violating_ndz] is NULL. *)
Definition D5 : Drones.t :=
  a_drone "D5" (PyFloat 260000) (PyFloat 250000) None None.

(** A drone without pilot link that is not violating. *)
Definition D6 : Drones.t :=
  a_drone "D6" (PyFloat 400000) (PyFloat 250000) (Some false) None.

(** The binary64 value nearest to 0.1. *)
Definition one_tenth : float := 0x1.999999999999ap-4%float.

(** The binary64 value nearest to 1e200. *)
Definition far_away : float := 0x1.4e718d7d7625ap+664%float.

(** The frame the loop classifies for a given result set, empty when the
    annotation raises. *)
Definition annotated (drones : list Drones.t) : frame drones_row :=
  match annotate_drones (DataFrame_drones drones) with
  | Return drones_df => drones_df
  | Raise _ => []
  end.

(** D3 somewhere else, everything but its position kept. *)
Definition D3_moved : Drones.t :=
  a_drone "D3" (PyFloat 250000) (PyFloat 260000) (Some true) None.

Definition a_store : store :=
  {| drones := [D1; D2]; violated_pilots := [] |}.

(** ** Further code of [app.py] *)

(** *** [highlight_not_null] (lines 148-157) *)

Module Styler.

(** A cell of a displayed row, as Python sees it. *)
Inductive cell : Type :=
| CNone
| CFloat (f : float)
| CStr (s : string)
| CBool (b : bool)
| CKey (k : key)
| CDatetime (t : datetime).

(** [pd.isna] on a scalar: [None] and nan are missing, nothing else is. *)
Definition cell_isna (c : cell) : bool :=
  match c with
  | CNone => true
  | CFloat f => is_nan f
  | _ => false
  end.

(** A [pd.Series]: values in order, each under its label. *)
Definition Series (A : Type) : Type := list (string * A).

Definition labels {A : Type} (s : Series A) : list string := map fst s.

(** The outcome of a lookup by label. *)
Inductive keyed (A : Type) : Type :=
| Ok (a : A)
| KeyError (label : string).

Arguments Ok {A} a.
Arguments KeyError {A} label.

(** The value under a label. *)
Fixpoint get {A : Type} (s : Series A) (l : string) : option A :=
  match s with
  | [] => None
  | (l', v) :: s' => if String.eqb l' l then Some v else get s' l
  end.

(** [s.loc[column]] with [column] a list of labels: the values under these
    labels, in the order of the list; [KeyError] at the first label that
    the series does not have. *)
Fixpoint loc {A : Type} (s : Series A) (column : list string)
  : keyed (Series A) :=
  match column with
  | [] => Ok []
  | l :: column' =>
      match get s l with
      | None => KeyError l
      | Some v =>
          match loc s column' with
          | Ok rest => Ok ((l, v) :: rest)
          | KeyError l' => KeyError l'
          end
      end
  end.

(** [s[l] = v] on an existing label. *)
Definition set_label {A : Type} (l : string) (v : A) (s : Series A) : Series A :=
  map (fun lv => if String.eqb lv.1 l then (lv.1, v) else lv) s.

(** [s[column] = values], label by label. *)
Definition set_labels {A : Type} (values : Series A) (s : Series A) : Series A :=
  foldl (fun acc lv => set_label lv.1 lv.2 acc) s values.

Definition darkred : string := "background-color: darkred".

(** [highlight_not_null(s, column)]. *)
Definition highlight_not_null (s : Series cell) (column : list string)
  : keyed (list string) :=
  let is_not_null := map (fun lv => (lv.1, false)) s in
  match loc s column with
  | KeyError l => KeyError l
  | Ok selected =>
      let is_not_null :=
        set_labels (map (fun lv => (lv.1, negb (cell_isna lv.2))) selected)
                   is_not_null in
      Ok (map (fun v => if existsb snd is_not_null then darkred else ""%string)
              is_not_null)
  end.

Definition of_number (v : number) : cell :=
  match v with PyNone => CNone | PyFloat f => CFloat f end.

Definition of_key (v : option key) : cell :=
  match v with None => CNone | Some k => CKey k end.

Definition of_flag (v : option bool) : cell :=
  match v with None => CNone | Some b => CBool b end.

Definition of_datetime (v : option datetime) : cell :=
  match v with None => CNone | Some t => CDatetime t end.

(** [drones_display_columns]. *)
Definition drones_display_columns : list string :=
  ["serial_number"; "current_distance_from_nest_in_meter"; "position_x";
   "position_y"; "altitude"; "is_violating_ndz"; "violated_pilot_id";
   "updated_at"]%string.

(** A row of [drones_df[drones_display_columns]], as the styler hands it to
    [highlight_not_null]. *)
Definition display_row (r : drones_row) : Series cell :=
  [("serial_number", CStr (Drones.serial_number (drone r)));
   ("current_distance_from_nest_in_meter",
    CFloat (current_distance_from_nest_in_meter r));
   ("position_x", of_number (Drones.position_x (drone r)));
   ("position_y", of_number (Drones.position_y (drone r)));
   ("altitude", of_number (Drones.altitude (drone r)));
   ("is_violating_ndz", of_flag (Drones.is_violating_ndz (drone r)));
   ("violated_pilot_id", of_key (Drones.violated_pilot_id (drone r)));
   ("updated_at", of_datetime (Drones.updated_at (drone r)))]%string.

(** The style of line 247: [apply(highlight_not_null,
    column=['violated_pilot_id'], axis=1)] on one row. *)
Definition row_style (r : drones_row) : keyed (list string) :=
  highlight_not_null (display_row r) ["violated_pilot_id"%string].

End Styler.

Export Styler.

(** *** [init_connection] (lines 107-116) *)

Module Connection.

(** [st.secrets['postgres']], each value as [format] prints it. *)
Record secrets : Type := {
  user : string;
  password : string;
  host : string;
  port : string;
  dbname : string
}.

(** ["postgresql+psycopg2://{}:{}@{}:{}/{}".format(user, password, host,
    port, dbname)], the URL handed to [create_engine]. *)
Definition url (s : secrets) : string :=
  ("postgresql+psycopg2://" +:+ user s +:+ ":" +:+ password s +:+ "@"
   +:+ host s +:+ ":" +:+ port s +:+ "/" +:+ dbname s)%string.

End Connection.

(** *** Callers of [run_query] (lines 173-176) *)

(** A call of [run_query]: when, on which content of the store, with which
    argument. *)
Definition call : Type := time * store * arg.

(** A sequence of calls, each on the state the previous one left: what the
    loop does pass after pass with [Query.DRONES] and [Query.PILOTS]. *)
Fixpoint run_calls (calls : list call) (st : state)
  : list (result records) * state :=
  match calls with
  | [] => ([], st)
  | (now, db, query) :: rest =>
      let r := run_query now db query st in
      let rs := run_calls rest r.2 in
      (r.1 :: rs.1, rs.2)
  end.

(** The clock does not go back: every call is made at or after [t0] and at
    or after the call before it. *)
Fixpoint clock_ok (t0 : time) (calls : list call) : bool :=
  match calls with
  | [] => true
  | (now, _, _) :: rest => (t0 <=? now)%Z && clock_ok now rest
  end.

(** The calls of [n] passes through the loop, one pass every [period], the
    drones fetched before the pilots, on a store that does not change. *)
Definition passes (n : nat) (start period : time) (db : store) : list call :=
  flat_map (fun k => let now := (start + Z.of_nat k * period)%Z in
                     [(now, db, Member DRONES); (now, db, Member PILOTS)])
           (seq 0 n).

(** *** Vocabulary of the further statements *)

(** Two reads of the same statement in a log are at least [ttl] apart. *)
Definition spaced (log : list (time * stmt)) : Prop :=
  forall (i j : nat) (t1 t2 : time) (s : stmt),
    (i < j)%nat -> log !! i = Some (t1, s) -> log !! j = Some (t2, s) ->
    (ttl <= t2 - t1)%Z.

(** What holds of the state after the calls [hist], the last of them made at
    or before [T]: no read is later than [T]; the entry of a member is the
    latest read of its statement, made by a call of [hist], and holds what
    that call read; a member without entry was never read; reads are
    spaced. *)
Record memo_inv (T : time) (hist : list call) (st : state) : Prop := {
  inv_log_le : forall t s, (t, s) ∈ executed st -> (t <= T)%Z;
  inv_entry : forall q e, cache st !! Member q = Some e ->
    (captured_at e, stmt_of q) ∈ executed st
    /\ (forall t, (t, stmt_of q) ∈ executed st -> (t <= captured_at e)%Z)
    /\ exists db, (captured_at e, db, Member q) ∈ hist
                  /\ value e = execute db (stmt_of q);
  inv_noentry : forall q, cache st !! Member q = None ->
    forall t, (t, stmt_of q) ∉ executed st;
  inv_spaced : spaced (executed st)
}.

(** The two distances computed for a pilot record whose squared offsets are
    in range. *)
Definition last_distance_or_missing (p : ViolatedPilots.t) : float :=
  match ViolatedPilots.last_violation_x p, ViolatedPilots.last_violation_y p with
  | PyFloat x, PyFloat y => geofence_distance x y
  | _, _ => nan
  end.

Definition nearest_distance_or_missing (p : ViolatedPilots.t) : float :=
  match ViolatedPilots.nearest_violation_x p,
        ViolatedPilots.nearest_violation_y p with
  | PyFloat x, PyFloat y => geofence_distance x y
  | _, _ => nan
  end.

(** The four coordinates of a pilot record are in range. *)
Definition pilot_within_range (p : ViolatedPilots.t) : bool :=
  within_range CENTER_X (ViolatedPilots.last_violation_x p)
  && within_range CENTER_Y (ViolatedPilots.last_violation_y p)
  && within_range CENTER_X (ViolatedPilots.nearest_violation_x p)
  && within_range CENTER_Y (ViolatedPilots.nearest_violation_y p).

(** A pilot record with the given two positions. *)
Definition a_pilot (id : string) (lx ly nx ny : number) : ViolatedPilots.t := {|
  ViolatedPilots.pilot_id := id;
  ViolatedPilots.first_name := None;
  ViolatedPilots.last_name := None;
  ViolatedPilots.phone_number := None;
  ViolatedPilots.email := None;
  ViolatedPilots.created_dt := None;
  ViolatedPilots.last_violation_at := None;
  ViolatedPilots.last_violation_x := lx;
  ViolatedPilots.last_violation_y := ly;
  ViolatedPilots.nearest_violation_x := nx;
  ViolatedPilots.nearest_violation_y := ny
|}.

Definition P1 : ViolatedPilots.t :=
  a_pilot "P1" (PyFloat 350000) (PyFloat 250000) (PyFloat 300000) (PyFloat 250000).

Definition P2 : ViolatedPilots.t :=
  a_pilot "P2" (PyFloat 200000) (PyFloat 200000) PyNone PyNone.

(** * Facts *)

(** ** Binary64 arithmetic *)

Section Binary64.
Local Open Scope float_scope.

Lemma binary_round_aux_not_negative mx ex lx :
  not_negative (binary_round_aux prec emax false mx ex lx).
Proof.
  unfold binary_round_aux.
  destruct (shr_fexp prec emax mx ex lx) as [mrs' e'].
  destruct (shr_fexp _ _ _ _ _) as [mrs'' e''].
  destruct (shr_m mrs''); simpl; auto.
  destruct (_ <=? _)%Z; simpl; auto.
Qed.

Lemma SF64mul_self_not_negative s : not_negative (SF64mul s s).
Proof.
  destruct s as [sg|sg| |sg m e]; simpl; auto.
  - destruct sg; reflexivity.
  - rewrite xorb_nilpotent. apply binary_round_aux_not_negative.
Qed.

Lemma SF64add_not_negative s1 s2 :
  not_negative s1 -> not_negative s2 -> not_negative (SF64add s1 s2).
Proof.
  destruct s1 as [sg1|sg1| |sg1 m1 e1], s2 as [sg2|sg2| |sg2 m2 e2];
    simpl; intros H1 H2; subst; try exact I; try reflexivity.
  - destruct sg1, sg2; exact I.
  - unfold binary_normalize.
    destruct (shl_align m1 e1 _) as [a ?], (shl_align m2 e2 _) as [b ?]; simpl.
    unfold binary_round. destruct (shl_align _ _ _).
    apply binary_round_aux_not_negative.
Qed.

Lemma not_negative_ltb_zero x : not_negative (Prim2SF x) -> (x <? 0) = false.
Proof.
  rewrite ltb_spec. change (Prim2SF 0) with (S754_zero false).
  destruct (Prim2SF x) as [sg|sg| |sg m e]; simpl; try reflexivity;
    intros ->; reflexivity.
Qed.

Lemma ltb_zero_not_negative x : (x <? 0) = false -> not_negative (Prim2SF x).
Proof.
  rewrite ltb_spec. change (Prim2SF 0) with (S754_zero false).
  destruct (Prim2SF x) as [sg|sg| |sg m e]; simpl; try (intros _; exact I);
    destruct sg; intros H; try reflexivity; discriminate H.
Qed.

Lemma add_not_below_zero a b :
  (a <? 0) = false -> (b <? 0) = false -> (a + b <? 0) = false.
Proof.
  intros Ha Hb. apply not_negative_ltb_zero. rewrite add_spec.
  apply SF64add_not_negative; apply ltb_zero_not_negative; assumption.
Qed.

(** [math.sqrt] never sees a negative argument: no [ValueError]. *)
Lemma sum_of_squares_not_negative a b : (a * a + b * b <? 0) = false.
Proof.
  apply not_negative_ltb_zero. rewrite add_spec, !mul_spec.
  apply SF64add_not_negative; apply SF64mul_self_not_negative.
Qed.

Lemma add_nan_l b : nan + b = nan.
Proof. apply Prim2SF_inj. rewrite add_spec. reflexivity. Qed.

Lemma add_nan_r a : a + nan = nan.
Proof.
  apply Prim2SF_inj. rewrite add_spec.
  change (Prim2SF nan) with S754_nan. destruct (Prim2SF a); reflexivity.
Qed.

Lemma mul_abs_abs a : abs a * abs a = a * a.
Proof.
  apply Prim2SF_inj. rewrite !mul_spec, abs_spec.
  destruct (Prim2SF a) as [sg|sg| |sg m e]; simpl; try reflexivity;
    destruct sg; reflexivity.
Qed.

Lemma is_infinity_abs a : is_infinity (abs a) = is_infinity a.
Proof.
  unfold is_infinity. f_equal. apply Prim2SF_inj.
  rewrite !abs_spec. destruct (Prim2SF a); reflexivity.
Qed.

(** The square depends on the magnitude only, sign of zero included. *)
Lemma pow2_abs a : pow2 (abs a) = pow2 a.
Proof.
  unfold pow2, pow_overflows. rewrite mul_abs_abs, is_infinity_abs. reflexivity.
Qed.

Lemma Return_inj {A : Type} (a b : A) : Return a = Return b -> a = b.
Proof. intros H. inversion H. reflexivity. Qed.

End Binary64.

(** ** The geofence calculator *)

Section GeofenceFacts.
Local Open Scope float_scope.

Lemma float_of_int_CENTER_X : float_of_int CENTER_X = 250000.
Proof. reflexivity. Qed.

Lemma float_of_int_CENTER_Y : float_of_int CENTER_Y = 250000.
Proof. reflexivity. Qed.

(** What the function does on two floats: [OverflowError] when a square is
    out of range, the formula otherwise. *)
Lemma distance_floats x y :
  distance_from_nest_in_meter (PyFloat x) (PyFloat y) =
  if pow_overflows (x - 250000) then Raise OverflowError
  else if pow_overflows (y - 250000) then Raise OverflowError
  else Return (geofence_distance x y).
Proof.
  unfold distance_from_nest_in_meter, sub_int.
  rewrite float_of_int_CENTER_X, float_of_int_CENTER_Y.
  cbn [mbind result_bind bind]. unfold pow2.
  destruct (pow_overflows (x - 250000)); [reflexivity|].
  cbn [mbind result_bind bind].
  destruct (pow_overflows (y - 250000)); [reflexivity|].
  cbn [mbind result_bind bind]. unfold math_sqrt.
  rewrite sum_of_squares_not_negative. reflexivity.
Qed.

Lemma distance_None_l y : distance_from_nest_in_meter PyNone y = Raise TypeError.
Proof. reflexivity. Qed.

Lemma geofence_distance_nan_l y : geofence_distance nan y = nan.
Proof.
  unfold geofence_distance, euclidean_distance, center, scale_factor. simpl.
  change (nan - 250000) with nan. change (nan * nan) with nan.
  rewrite add_nan_l. reflexivity.
Qed.

Lemma geofence_distance_nan_r x : geofence_distance x nan = nan.
Proof.
  unfold geofence_distance, euclidean_distance, center, scale_factor. simpl.
  change (nan - 250000) with nan. change (nan * nan) with nan.
  rewrite add_nan_r. reflexivity.
Qed.

(** The rounded product is never below zero. *)
Lemma pow2_not_below_zero a v : pow2 a = Return v -> (v <? 0) = false.
Proof.
  unfold pow2. destruct (pow_overflows a); [discriminate|].
  intros H. apply Return_inj in H. subst v.
  apply not_negative_ltb_zero. rewrite mul_spec.
  apply SF64mul_self_not_negative.
Qed.

Lemma distance_with_pow2 x y :
  distance_with pow2 x y = distance_from_nest_in_meter x y.
Proof. reflexivity. Qed.

(** C2, where it fails: at x = 1e200 the square of the offset is out of the
    float range and the function raises [OverflowError]; the formula gives
    no distance there. *)
Lemma distance_overflows :
  distance_from_nest_in_meter (PyFloat far_away) (PyFloat 0)
  = Raise OverflowError
  /\ returns (distance_from_nest_in_meter (PyFloat far_away) (PyFloat 0))
     = false.
Proof. split; vm_compute; reflexivity. Qed.

(** C2, amended: whatever the interpreter's [** 2] is, as long as it never
    gives a number below zero: when the squares [sx] of [x - 250000] and
    [sy] of [y - 250000] are both computed, the function returns
    [sqrt(sx + sy) / 1000], the distance from the centre (250000, 250000)
    divided by the scale factor 1000; when one of the squares raises (as
    [** 2] does with [OverflowError] for an offset whose square is out of
    range), the function raises the same exception, that of [x] first. *)
Theorem distance_formula (square : float -> result float) (x y : float) :
  (forall a v, square a = Return v -> (v <? 0) = false) ->
  match square (x - 250000), square (y - 250000) with
  | Return sx, Return sy =>
      distance_with square (PyFloat x) (PyFloat y)
      = Return (sqrt (sx + sy) / 1000)
  | Return _, Raise e | Raise e, _ =>
      distance_with square (PyFloat x) (PyFloat y) = Raise e
  end
  /\ (250000, 250000) = (float_of_int CENTER_X, float_of_int CENTER_Y).
Proof.
  intros Hsq. split; [|reflexivity].
  unfold distance_with, sub_int.
  rewrite float_of_int_CENTER_X, float_of_int_CENTER_Y.
  cbn [mbind result_bind bind].
  destruct (square (x - 250000)) as [sx|e] eqn:Hx;
    cbn [mbind result_bind bind]; [|reflexivity].
  destruct (square (y - 250000)) as [sy|e] eqn:Hy;
    cbn [mbind result_bind bind]; [|reflexivity].
  unfold math_sqrt.
  rewrite (add_not_below_zero sx sy (Hsq _ _ Hx) (Hsq _ _ Hy)).
  reflexivity.
Qed.

Lemma distance_formula_witness :
  distance_with pow2 (PyFloat 123456.75) (PyFloat 0.5)
  = Return (sqrt ((123456.75 - 250000) * (123456.75 - 250000)
                  + (0.5 - 250000) * (0.5 - 250000)) / 1000).
Proof.
  exact (proj1 (distance_formula pow2 123456.75 0.5 pow2_not_below_zero)).
Defined.

(** C8, where it fails: the binary64 value nearest to 0.1 and its mirror
    image [500000 - x] are not at the same computed distance
    (249.9999 against 249.99990000000003): the subtraction that mirrors the
    point rounds. *)
Lemma reflection_rounds :
  distance_from_nest_in_meter (PyFloat (reflect CENTER_X one_tenth))
                              (PyFloat (reflect CENTER_Y 250000))
  <> distance_from_nest_in_meter (PyFloat one_tenth) (PyFloat 250000).
Proof.
  vm_compute. intros H. apply Return_inj in H.
  apply (f_equal Prim2SF) in H. vm_compute in H. discriminate H.
Qed.

(** C8, amended: the distance at the centre is 0, and the distance of a
    point equals that of its mirror image [(2 * CENTER_X - x,
    2 * CENTER_Y - y)] whenever the offsets of the mirror image from the
    centre have exactly the magnitudes of the point's offsets, that is,
    whenever mirroring the point does not round. *)
Theorem reflection_exact_offsets (x y : float) :
  abs (reflect CENTER_X x - float_of_int CENTER_X)
  = abs (x - float_of_int CENTER_X) ->
  abs (reflect CENTER_Y y - float_of_int CENTER_Y)
  = abs (y - float_of_int CENTER_Y) ->
  distance_from_nest_in_meter (PyFloat (float_of_int CENTER_X))
                              (PyFloat (float_of_int CENTER_Y)) = Return 0
  /\ distance_from_nest_in_meter (PyFloat (reflect CENTER_X x))
                                 (PyFloat (reflect CENTER_Y y))
     = distance_from_nest_in_meter (PyFloat x) (PyFloat y).
Proof.
  intros Hx Hy. split; [vm_compute; reflexivity|].
  unfold distance_from_nest_in_meter, sub_int.
  cbn [mbind result_bind bind].
  rewrite <- (pow2_abs (reflect CENTER_X x - _)), Hx, pow2_abs.
  rewrite <- (pow2_abs (reflect CENTER_Y y - _)), Hy, pow2_abs.
  reflexivity.
Qed.

Lemma reflection_exact_offsets_witness :
  distance_from_nest_in_meter (PyFloat 250000) (PyFloat 250000) = Return 0
  /\ distance_from_nest_in_meter (PyFloat 150000.5) (PyFloat 250000)
     = distance_from_nest_in_meter (PyFloat 349999.5) (PyFloat 250000).
Proof.
  apply (reflection_exact_offsets 349999.5 250000); vm_compute; reflexivity.
Defined.

End GeofenceFacts.

(** ** Frames: masks, column selections, row-wise application *)

Section FrameFacts.
Context {A : Type}.
Implicit Types (df : frame A) (p : A -> bool).

Lemma index_columns {B : Type} (f : A -> B) df :
  index (columns f df) = index df.
Proof. unfold index, columns. rewrite map_map. reflexivity. Qed.

Lemma loc_mask_columns {B : Type} (f : A -> B) (q : B -> bool) df :
  loc_mask q (columns f df) = columns f (loc_mask (fun r => q (f r)) df).
Proof.
  unfold loc_mask, columns.
  induction df as [|[i r] df IH]; [reflexivity|].
  simpl. destruct (q (f r)); simpl; rewrite IH; reflexivity.
Qed.

Lemma loc_mask_loc_mask p q df :
  loc_mask q (loc_mask p df) = loc_mask (fun r => p r && q r) df.
Proof.
  unfold loc_mask.
  induction df as [|[i r] df IH]; [reflexivity|].
  simpl. destruct (p r); simpl; [destruct (q r)|]; rewrite IH; reflexivity.
Qed.

Lemma loc_mask_ext p q df :
  (forall r, p r = q r) -> loc_mask p df = loc_mask q df.
Proof. intros H. unfold loc_mask. apply filter_ext. intros [i r]. apply H. Qed.

Lemma elem_of_loc_mask p df i r :
  (i, r) ∈ loc_mask p df <-> (i, r) ∈ df /\ p r = true.
Proof. unfold loc_mask. rewrite !list_elem_of_In, filter_In. reflexivity. Qed.

Lemma elem_of_index df i : i ∈ index df <-> exists r, (i, r) ∈ df.
Proof.
  unfold index. rewrite list_elem_of_fmap. split.
  - intros [[j r] [-> H]]. eauto.
  - intros [r H]. exists (i, r). auto.
Qed.

(** With unique labels, a label names one row. *)
Lemma NoDup_index_eq df i r r' :
  NoDup (index df) -> (i, r) ∈ df -> (i, r') ∈ df -> r = r'.
Proof.
  induction df as [|[j s] df IH]; cbn; intros Hnd H1 H2.
  - inversion H1.
  - apply NoDup_cons in Hnd as [Hj Hnd].
    apply elem_of_cons in H1 as [H1|H1]; apply elem_of_cons in H2 as [H2|H2].
    + congruence.
    + inversion H1; subst. destruct Hj. apply elem_of_index. eauto.
    + inversion H2; subst. destruct Hj. apply elem_of_index. eauto.
    + eauto.
Qed.

Lemma elem_of_index_loc_mask p df i r :
  NoDup (index df) -> (i, r) ∈ df ->
  i ∈ index (loc_mask p df) <-> p r = true.
Proof.
  intros Hnd Hir. rewrite elem_of_index. split.
  - intros [r' [Hr' Hp]%elem_of_loc_mask].
    rewrite (NoDup_index_eq df i r r'); auto.
  - intros Hp. exists r. apply elem_of_loc_mask. auto.
Qed.

(** Three masks of which every row of the frame satisfies exactly one split
    the labels. *)
Lemma index_loc_mask_partition p1 p2 p3 df :
  Forall (fun ir => (p1 ir.2, p2 ir.2, p3 ir.2) = (true, false, false)
                    \/ (p1 ir.2, p2 ir.2, p3 ir.2) = (false, true, false)
                    \/ (p1 ir.2, p2 ir.2, p3 ir.2) = (false, false, true))
         df ->
  index (loc_mask p1 df) ++ index (loc_mask p2 df) ++ index (loc_mask p3 df)
  ≡ₚ index df.
Proof.
  unfold loc_mask, index.
  induction 1 as [|[i r] df H _ IH]; [reflexivity|].
  simpl in *.
  destruct (p1 r), (p2 r), (p3 r); simpl;
    destruct H as [H|[H|H]]; try discriminate H.
  - constructor. exact IH.
  - rewrite <- IH. symmetry. apply Permutation_middle.
  - rewrite <- IH. rewrite app_assoc. symmetry.
    rewrite <- Permutation_middle. rewrite app_assoc. reflexivity.
Qed.

(** Masks that agree row by row on two frames with the same labels select
    the same labels. *)
Lemma index_loc_mask_Forall2 {B : Type} p (q : B -> bool) df (df' : frame B) :
  Forall2 (fun r r' => r.1 = r'.1 /\ p r.2 = q r'.2) df df' ->
  index (loc_mask p df) = index (loc_mask q df').
Proof.
  unfold index, loc_mask.
  induction 1 as [|[i r] [j r'] df df' [Hi Hp] _ IH]; [reflexivity|].
  simpl in *. subst j. rewrite Hp. destruct (q r'); simpl; rewrite IH; reflexivity.
Qed.

(** [apply] on rows for which the function returns: every row is mapped,
    labels kept. *)
Lemma apply_imap {B C : Type} (f : B -> result C) (g : A -> B) (h : A -> C)
    (lab : nat -> nat) (l : list A) :
  (forall a, a ∈ l -> f (g a) = Return (h a)) ->
  apply f (imap (fun i a => (lab i, g a)) l)
  = Return (imap (fun i a => (lab i, h a)) l).
Proof.
  revert lab. induction l as [|a l IH]; intros lab Hf; [reflexivity|].
  simpl. rewrite Hf by apply list_elem_of_here.
  cbn [mbind result_bind bind].
  change (apply f (imap (fun i a => ((lab ∘ S) i, g a)) l)
          ≫= (fun rest => Return ((lab 0, h a) :: rest))
          = Return ((lab 0, h a) :: imap (fun i a => ((lab ∘ S) i, h a)) l)).
  rewrite IH; [reflexivity|].
  intros b Hb. apply Hf. apply list_elem_of_further. exact Hb.
Qed.

Lemma index_imap {B : Type} (g : A -> B) (l : list A) (k : nat) :
  index (imap (fun i a => (k + i, g a)) l) = seq k (length l).
Proof.
  unfold index. revert k. induction l as [|a l IH]; intros k; [reflexivity|].
  simpl. rewrite Nat.add_0_r. f_equal.
  rewrite <- IH. f_equal. apply imap_ext. intros i b _. simpl.
  f_equal. lia.
Qed.

End FrameFacts.

Lemma DataFrame_drones_index drones :
  index (DataFrame_drones drones) = seq 0 (length drones).
Proof. unfold DataFrame_drones. apply (index_imap _ drones 0). Qed.

Lemma DataFrame_drones_NoDup drones : NoDup (index (DataFrame_drones drones)).
Proof. rewrite DataFrame_drones_index. apply NoDup_seq. Qed.

(** ** The three categories (lines 210-213) *)

Section Classification.
Implicit Types (drones_df : frame drones_row) (r : drones_row) (c : category)
  (s : position_sets).

Lemma bad_flags_column (q : option bool -> bool) drones_df :
  existsb (fun t => q t.2.2) (bad_drones drones_df)
  = existsb q (bad_flags drones_df).
Proof.
  unfold bad_flags. induction (bad_drones drones_df) as [|t l IH];
    [reflexivity|].
  simpl. rewrite IH. reflexivity.
Qed.

Lemma selected_bad (q : option bool -> bool) drones_df :
  columns (fun t => (t.1.1, t.1.2))
          (loc_mask (fun t => q t.2) (bad_drones drones_df))
  = columns position (loc_mask (fun r => unlinked r && q (flag r)) drones_df).
Proof.
  unfold bad_drones.
  rewrite loc_mask_columns, loc_mask_loc_mask.
  unfold columns. rewrite map_map. reflexivity.
Qed.

(** Line 211, case by case. *)
Lemma bad_currently_violating_cases drones_df :
  bad_currently_violating drones_df
  = if flag_is_object drones_df then
      if existsb isna (bad_flags drones_df) then Raise ValueError
      else match bad_flags drones_df with
           | [] => Raise Py.KeyError
           | _ :: _ => Return (selected BadCurrentlyViolating drones_df)
           end
    else Return (selected BadCurrentlyViolating drones_df).
Proof.
  unfold bad_currently_violating. cbv zeta.
  rewrite (selected_bad is_True), (bad_flags_column isna).
  unfold bad_flags. destruct (bad_drones drones_df); reflexivity.
Qed.

(** Line 212, case by case. *)
Lemma bad_not_currently_violating_cases drones_df :
  bad_not_currently_violating drones_df
  = if flag_is_object drones_df then
      if existsb isna (bad_flags drones_df) then Raise TypeError
      else Raise Py.KeyError
    else Return (selected BadNotCurrentlyViolating drones_df).
Proof.
  unfold bad_not_currently_violating. cbv zeta.
  rewrite (selected_bad is_False), (bad_flags_column isna).
  reflexivity.
Qed.

(** Lines 210-213: on a flag column of [bool]s the three sets are the three
    selections; on a flag column of objects line 211 or line 212 raises. *)
Lemma position_sets_of_cases drones_df :
  position_sets_of drones_df
  = if flag_is_object drones_df then
      Raise (if existsb isna (bad_flags drones_df)
             then ValueError else Py.KeyError)
    else Return (selected_sets drones_df).
Proof.
  unfold position_sets_of.
  rewrite bad_currently_violating_cases, bad_not_currently_violating_cases.
  destruct (flag_is_object drones_df); [|reflexivity].
  destruct (existsb isna (bad_flags drones_df)); [reflexivity|].
  destruct (bad_flags drones_df); reflexivity.
Qed.

Lemma position_sets_of_bool drones_df :
  flag_is_object drones_df = false ->
  position_sets_of drones_df = Return (selected_sets drones_df).
Proof. intros H. rewrite position_sets_of_cases, H. reflexivity. Qed.

Lemma position_sets_of_Return drones_df s :
  position_sets_of drones_df = Return s ->
  flag_is_object drones_df = false /\ s = selected_sets drones_df.
Proof.
  rewrite position_sets_of_cases.
  destruct (flag_is_object drones_df); [discriminate|].
  intros H. apply Return_inj in H. auto.
Qed.

Lemma position_sets_of_object drones_df :
  flag_is_object drones_df = true ->
  exists e, position_sets_of drones_df = Raise e
            /\ (e = ValueError \/ e = Py.KeyError).
Proof.
  intros H. rewrite position_sets_of_cases, H.
  destruct (existsb isna (bad_flags drones_df)); eauto.
Qed.

(** A flag column of [bool]s has no [None]. *)
Lemma flag_is_object_false drones_df i r :
  flag_is_object drones_df = false -> (i, r) ∈ drones_df ->
  exists b, flag r = Some b.
Proof.
  intros H Hin. destruct (flag r) as [b|] eqn:Hf; [eauto|].
  assert (Habs : flag_is_object drones_df = true); [|congruence].
  apply existsb_exists. exists (i, r).
  split; [apply list_elem_of_In, Hin|].
  simpl. unfold flag in Hf. rewrite Hf. reflexivity.
Qed.

Lemma series_selected c drones_df :
  series c (selected_sets drones_df) = selected c drones_df.
Proof. destruct c; reflexivity. Qed.

Lemma index_selected c drones_df :
  index (selected c drones_df) = index (loc_mask (selects c) drones_df).
Proof. apply index_columns. Qed.

Lemma elem_of_index_selected c drones_df i r :
  NoDup (index drones_df) -> (i, r) ∈ drones_df ->
  i ∈ index (selected c drones_df) <-> selects c r = true.
Proof. intros. rewrite index_selected. apply elem_of_index_loc_mask; auto. Qed.

Lemma elem_of_selected c drones_df i xy :
  (i, xy) ∈ selected c drones_df ->
  exists r, (i, r) ∈ drones_df /\ xy = position r.
Proof.
  unfold selected, columns. rewrite list_elem_of_fmap.
  intros [[j r] [Heq [Hin _]%elem_of_loc_mask]].
  simpl in Heq. inversion Heq; subst. eauto.
Qed.

Lemma selects_unique r c c' :
  selects c r = true -> selects c' r = true -> c' = c.
Proof.
  destruct c, c'; simpl; destruct (unlinked r), (flag r) as [[]|]; simpl;
    intros; congruence.
Qed.

Lemma selects_total r b : flag r = Some b -> exists c, selects c r = true.
Proof.
  intros Hf. destruct (unlinked r) eqn:Hu, b.
  - exists BadCurrentlyViolating. simpl. rewrite Hu, Hf. reflexivity.
  - exists BadNotCurrentlyViolating. simpl. rewrite Hu, Hf. reflexivity.
  - exists GoodDrones. simpl. rewrite Hu. reflexivity.
  - exists GoodDrones. simpl. rewrite Hu. reflexivity.
Qed.

Lemma unlinked_true r :
  unlinked r = true <-> Drones.violated_pilot_id (drone r) = None.
Proof.
  unfold unlinked, isna.
  destruct (Drones.violated_pilot_id (drone r)); split; congruence.
Qed.

Lemma unlinked_false r :
  unlinked r = false <-> Drones.violated_pilot_id (drone r) <> None.
Proof.
  unfold unlinked, isna.
  destruct (Drones.violated_pilot_id (drone r)); split; congruence.
Qed.

Lemma elem_of_index_good_drones drones_df i r :
  NoDup (index drones_df) -> (i, r) ∈ drones_df ->
  i ∈ index (good_drones drones_df)
  <-> Drones.violated_pilot_id (drone r) <> None.
Proof.
  intros Hnd Hir.
  rewrite (elem_of_index_selected GoodDrones drones_df i r Hnd Hir).
  simpl. rewrite negb_true_iff. apply unlinked_false.
Qed.

(** On a flag column of [bool]s every row satisfies one of the three masks
    and no second one. *)
Lemma selects_one_of drones_df :
  flag_is_object drones_df = false ->
  Forall (fun ir =>
            (selects BadCurrentlyViolating ir.2,
             selects BadNotCurrentlyViolating ir.2,
             selects GoodDrones ir.2) = (true, false, false)
            \/ (selects BadCurrentlyViolating ir.2,
                selects BadNotCurrentlyViolating ir.2,
                selects GoodDrones ir.2) = (false, true, false)
            \/ (selects BadCurrentlyViolating ir.2,
                selects BadNotCurrentlyViolating ir.2,
                selects GoodDrones ir.2) = (false, false, true))
         drones_df.
Proof.
  intros Hobj. apply Forall_forall. intros [i r] Hin.
  destruct (flag_is_object_false drones_df i r Hobj Hin) as [b Hb].
  simpl. rewrite Hb. destruct (unlinked r), b; simpl; auto.
Qed.

Lemma selected_partition drones_df :
  flag_is_object drones_df = false ->
  index (selected BadCurrentlyViolating drones_df)
    ++ index (selected BadNotCurrentlyViolating drones_df)
    ++ index (selected GoodDrones drones_df) ≡ₚ index drones_df.
Proof.
  intros Hobj. rewrite !index_selected.
  apply index_loc_mask_partition, selects_one_of, Hobj.
Qed.

(** Frames that agree on the two columns have the same flag column, the same
    mask column and the same selections. *)
Lemma same_link_and_flag_columns (df1 df2 : frame drones_row) :
  Forall2 same_link_and_flag df1 df2 ->
  flag_is_object df1 = flag_is_object df2
  /\ bad_flags df1 = bad_flags df2
  /\ forall c, index (selected c df1) = index (selected c df2).
Proof.
  intros Hagree. split; [|split].
  - unfold flag_is_object.
    induction Hagree as [|[i r] [j r'] df1 df2 (_ & _ & Hf) _ IH];
      [reflexivity|].
    simpl in *. rewrite Hf, IH. reflexivity.
  - unfold bad_flags, bad_drones, columns, loc_mask. rewrite !map_map.
    induction Hagree as [|[i r] [j r'] df1 df2 (_ & Hp & Hf) _ IH];
      [reflexivity|].
    simpl in *. rewrite Hp.
    destruct (isna (Drones.violated_pilot_id (drone r'))); simpl;
      rewrite ?Hf, IH; reflexivity.
  - intros c. rewrite !index_selected. apply index_loc_mask_Forall2.
    eapply Forall2_impl; [exact Hagree|].
    intros [i r] [j r'] (Hl & Hp & Hf). split; [exact Hl|].
    simpl in *. unfold selects, unlinked, flag. rewrite Hp, Hf.
    reflexivity.
Qed.

(** C1, where it fails: a result set in which a drone without pilot link
    has a NULL [is_violating_ndz] next to one whose flag is set.  The mask
    of line 211 holds a missing value, pandas raises [ValueError], and no
    set is produced: the records are in no category. *)
Lemma null_flag_no_partition :
  position_sets_of (annotated [D1; D5]) = Raise ValueError
  /\ ~ exists s, position_sets_of (annotated [D1; D5]) = Return s.
Proof.
  assert (H : position_sets_of (annotated [D1; D5]) = Raise ValueError)
    by (vm_compute; reflexivity).
  split; [exact H|]. intros [s Hs]. rewrite H in Hs. discriminate Hs.
Qed.

(** C1, amended: on a frame with unique labels in which no
    [is_violating_ndz] is NULL the three sets are produced and split the
    rows: their labels put together are the frame's labels, each once;
    every row is in one set and in no second one; and a set holds nothing
    but positions of rows of the frame.  When some flag is NULL, line 211
    or line 212 raises ([ValueError] or [KeyError]) and no set is
    produced. *)
Theorem categories_partition drones_df :
  NoDup (index drones_df) ->
  (flag_is_object drones_df = false ->
   exists s,
     position_sets_of drones_df = Return s
     /\ index (currently_violating s) ++ index (not_currently_violating s)
          ++ index (linked s) ≡ₚ index drones_df
     /\ (forall i, i ∈ index drones_df ->
           exists c, i ∈ index (series c s)
                     /\ forall c', i ∈ index (series c' s) -> c' = c)
     /\ (forall c i xy, (i, xy) ∈ series c s ->
           exists r, (i, r) ∈ drones_df /\ xy = position r))
  /\ (flag_is_object drones_df = true ->
      exists e, position_sets_of drones_df = Raise e
                /\ (e = ValueError \/ e = Py.KeyError)).
Proof.
  intros Hnd. split; [|apply position_sets_of_object].
  intros Hobj. exists (selected_sets drones_df).
  split; [apply position_sets_of_bool, Hobj|]. split; [|split].
  - apply selected_partition, Hobj.
  - intros i [r Hr]%elem_of_index.
    destruct (flag_is_object_false drones_df i r Hobj Hr) as [b Hb].
    destruct (selects_total r b Hb) as [c Hc]. exists c.
    rewrite series_selected. split.
    + apply (elem_of_index_selected c drones_df i r); auto.
    + intros c' Hc'. rewrite series_selected in Hc'.
      apply (elem_of_index_selected c' drones_df i r) in Hc'; auto.
      eapply selects_unique; eauto.
  - intros c i xy. rewrite series_selected. apply elem_of_selected.
Qed.

(** C3, where it fails: D6 has no pilot link and its flag is false, but
    next to D5, whose flag is NULL, line 211 raises [ValueError] and D6 is
    put in no set. *)
Lemma null_flag_no_classification :
  Drones.violated_pilot_id D6 = None
  /\ Drones.is_violating_ndz D6 = Some false
  /\ position_sets_of (annotated [D6; D5]) = Raise ValueError
  /\ ~ exists s, position_sets_of (annotated [D6; D5]) = Return s
                 /\ 0 ∈ index (not_currently_violating s).
Proof.
  assert (H : position_sets_of (annotated [D6; D5]) = Raise ValueError)
    by (vm_compute; reflexivity).
  split; [reflexivity|]. split; [reflexivity|]. split; [exact H|].
  intros [s [Hs _]]. rewrite H in Hs. discriminate Hs.
Qed.

(** C3, amended: in a frame with unique labels in which no
    [is_violating_ndz] is NULL the three sets are produced, and a row is in
    [bad_currently_violating] exactly when its [violated_pilot_id] is
    absent and its flag is true, in [bad_not_currently_violating] exactly
    when the link is absent and the flag false, and in [good_drones]
    exactly when the link is present, whatever the flag.  When some flag is
    NULL no set is produced. *)
Theorem classification_rules drones_df i r :
  NoDup (index drones_df) -> (i, r) ∈ drones_df ->
  (flag_is_object drones_df = false ->
   exists s,
     position_sets_of drones_df = Return s
     /\ (i ∈ index (currently_violating s)
         <-> Drones.violated_pilot_id (drone r) = None
             /\ Drones.is_violating_ndz (drone r) = Some true)
     /\ (i ∈ index (not_currently_violating s)
         <-> Drones.violated_pilot_id (drone r) = None
             /\ Drones.is_violating_ndz (drone r) = Some false)
     /\ (i ∈ index (linked s)
         <-> Drones.violated_pilot_id (drone r) <> None))
  /\ (flag_is_object drones_df = true ->
      returns (position_sets_of drones_df) = false).
Proof.
  intros Hnd Hir. split.
  - intros Hobj. exists (selected_sets drones_df).
    split; [apply position_sets_of_bool, Hobj|].
    pose proof (elem_of_index_selected BadCurrentlyViolating _ _ _ Hnd Hir)
      as H1.
    pose proof (elem_of_index_selected BadNotCurrentlyViolating _ _ _ Hnd Hir)
      as H2.
    pose proof (elem_of_index_good_drones _ _ _ Hnd Hir) as H3.
    split; [|split; [|exact H3]].
    + etransitivity; [exact H1|]. simpl.
      rewrite andb_true_iff, unlinked_true. unfold flag.
      destruct (Drones.is_violating_ndz (drone r)) as [[]|]; simpl;
        intuition congruence.
    + etransitivity; [exact H2|]. simpl.
      rewrite andb_true_iff, unlinked_true. unfold flag.
      destruct (Drones.is_violating_ndz (drone r)) as [[]|]; simpl;
        intuition congruence.
  - intros Hobj.
    destruct (position_sets_of_object drones_df Hobj) as (e & -> & _).
    reflexivity.
Qed.

(** C10, where it fails: D3 lies outside the circle, has no pilot link and
    its stored flag is true, but next to D5, whose flag is NULL, line 211
    raises [ValueError] and D3 is put in no set. *)
Lemma null_flag_outside_unclassified :
  Drones.violated_pilot_id D3 = None
  /\ Drones.is_violating_ndz D3 = Some true
  /\ position_sets_of (annotated [D3; D5]) = Raise ValueError
  /\ ~ exists s, position_sets_of (annotated [D3; D5]) = Return s
                 /\ 0 ∈ index (currently_violating s).
Proof.
  assert (H : position_sets_of (annotated [D3; D5]) = Raise ValueError)
    by (vm_compute; reflexivity).
  split; [reflexivity|]. split; [reflexivity|]. split; [exact H|].
  intros [s [Hs _]]. rewrite H in Hs. discriminate Hs.
Qed.

(** C10, amended: what lines 210-213 give is computed from
    [violated_pilot_id] and [is_violating_ndz] alone.  Two frames whose
    rows agree, label by label, on these two columns fail with the same
    exception or give sets with the same labels, whatever the positions,
    the distances and the other columns; and whenever the sets are produced
    (no flag of the frame is NULL), a row without link whose flag is true
    is in [bad_currently_violating], and in no other set, wherever it
    lies. *)
Theorem classification_reads_two_columns (df1 df2 : frame drones_row) :
  Forall2 same_link_and_flag df1 df2 ->
  (forall e, position_sets_of df1 = Raise e <-> position_sets_of df2 = Raise e)
  /\ (forall s1 s2,
        position_sets_of df1 = Return s1 -> position_sets_of df2 = Return s2 ->
        forall c, index (series c s1) = index (series c s2))
  /\ (returns (position_sets_of df1) = true
      <-> forall i r, (i, r) ∈ df1 -> Drones.is_violating_ndz (drone r) <> None)
  /\ (forall i r s, NoDup (index df1) -> (i, r) ∈ df1 ->
        Drones.violated_pilot_id (drone r) = None ->
        Drones.is_violating_ndz (drone r) = Some true ->
        position_sets_of df1 = Return s ->
        i ∈ index (currently_violating s)
        /\ (i ∉ index (not_currently_violating s))
        /\ (i ∉ index (linked s))).
Proof.
  intros Hagree.
  destruct (same_link_and_flag_columns df1 df2 Hagree) as (Ho & Hb & Hs).
  split; [|split; [|split]].
  - intros e. rewrite !position_sets_of_cases, Ho, Hb.
    destruct (flag_is_object df2); [reflexivity|].
    split; discriminate.
  - intros s1 s2 [_ ->]%position_sets_of_Return [_ ->]%position_sets_of_Return c.
    rewrite !series_selected. apply Hs.
  - rewrite position_sets_of_cases.
    destruct (flag_is_object df1) eqn:Hobj; simpl.
    + split; [discriminate|]. intros Hall. exfalso.
      apply existsb_exists in Hobj as [[i r] [Hin Hna]].
      apply (Hall i r); [apply list_elem_of_In, Hin|].
      simpl in Hna. destruct (Drones.is_violating_ndz (drone r));
        [discriminate|reflexivity].
    + split; [|reflexivity]. intros _ i r Hin Hf.
      destruct (flag_is_object_false df1 i r Hobj Hin) as [b Hb'].
      unfold flag in Hb'. congruence.
  - intros i r s Hnd Hir Hp Hf [_ ->]%position_sets_of_Return.
    pose proof (elem_of_index_selected BadCurrentlyViolating _ _ _ Hnd Hir)
      as H1.
    pose proof (elem_of_index_selected BadNotCurrentlyViolating _ _ _ Hnd Hir)
      as H2.
    pose proof (elem_of_index_selected GoodDrones _ _ _ Hnd Hir) as H3.
    simpl in H1, H2, H3. unfold unlinked, flag in H1, H2, H3.
    rewrite Hp in H1, H2, H3. rewrite Hf in H1, H2. simpl in H1, H2, H3.
    split; [apply H1; reflexivity|].
    split; intros Habs; [apply H2 in Habs|apply H3 in Habs];
      discriminate Habs.
Qed.

(** C7: drone D1 at (250000, 250000), violating and without pilot link, is
    at distance 0 and in [bad_currently_violating], and in no other set;
    drone D2 at (350000, 250000), not violating and linked to pilot "P1",
    is at distance 100 and in [good_drones], and in no other set.  So it is
    for the result set made of D1 and D2, and in every frame with unique
    labels that shows them and for which the sets are produced. *)
Theorem scenario_D1_D2 :
  distance_from_nest_in_meter (Drones.position_x D1) (Drones.position_y D1)
  = Return 0%float
  /\ distance_from_nest_in_meter (Drones.position_x D2) (Drones.position_y D2)
     = Return 100%float
  /\ (exists drones_df s,
        annotate_drones (DataFrame_drones [D1; D2]) = Return drones_df
        /\ map (fun ir => current_distance_from_nest_in_meter ir.2) drones_df
           = [0%float; 100%float]
        /\ position_sets_of drones_df = Return s
        /\ index (currently_violating s) = [0]
        /\ index (not_currently_violating s) = []
        /\ index (linked s) = [1])
  /\ (forall drones_df i j r1 r2 s,
        NoDup (index drones_df) ->
        (i, r1) ∈ drones_df -> shows D1 r1 ->
        (j, r2) ∈ drones_df -> shows D2 r2 ->
        position_sets_of drones_df = Return s ->
        (i ∈ index (currently_violating s)
         /\ (i ∉ index (not_currently_violating s))
         /\ (i ∉ index (linked s)))
        /\ (j ∈ index (linked s)
            /\ (j ∉ index (currently_violating s))
            /\ (j ∉ index (not_currently_violating s)))).
Proof.
  split; [reflexivity|]. split; [reflexivity|]. split.
  - exists (annotated [D1; D2]), (selected_sets (annotated [D1; D2])).
    repeat split.
  - intros drones_df i j r1 r2 s Hnd Hi (_ & _ & Hf1 & Hp1)
      Hj (_ & _ & Hf2 & Hp2) [_ ->]%position_sets_of_Return.
    pose proof (fun c => elem_of_index_selected c _ _ _ Hnd Hi) as H1.
    pose proof (fun c => elem_of_index_selected c _ _ _ Hnd Hj) as H2.
    pose proof (H1 BadCurrentlyViolating) as H1a.
    pose proof (H1 BadNotCurrentlyViolating) as H1b.
    pose proof (H1 GoodDrones) as H1c.
    pose proof (H2 BadCurrentlyViolating) as H2a.
    pose proof (H2 BadNotCurrentlyViolating) as H2b.
    pose proof (H2 GoodDrones) as H2c.
    simpl in H1a, H1b, H1c, H2a, H2b, H2c.
    unfold unlinked, flag in H1a, H1b, H1c, H2a, H2b, H2c.
    rewrite Hp1 in H1a, H1b, H1c. rewrite Hf1 in H1a, H1b.
    rewrite Hp2 in H2a, H2b, H2c.
    simpl in H1a, H1b, H1c, H2a, H2b, H2c.
    split; (split; [|split]);
      first [ apply H1a; reflexivity | apply H2c; reflexivity
            | intros Habs;
              first [ apply H1b in Habs | apply H1c in Habs
                    | apply H2a in Habs | apply H2b in Habs ];
              discriminate Habs ].
Qed.

End Classification.

Lemma categories_partition_witness :
  exists s,
    position_sets_of (annotated [D1; D2; D3]) = Return s
    /\ index (currently_violating s) ++ index (not_currently_violating s)
         ++ index (linked s) ≡ₚ [0; 1; 2].
Proof.
  destruct (categories_partition (annotated [D1; D2; D3])) as [H _].
  - refine (bool_decide_unpack _ _); vm_compute; exact I.
  - destruct H as (s & Hs & Hp & _); [vm_compute; reflexivity|].
    exists s. split; [exact Hs|exact Hp].
Defined.

Lemma classification_rules_witness :
  let r := {| drone := D2; current_distance_from_nest_in_meter := 100 |} in
  exists s,
    position_sets_of (annotated [D1; D2; D3]) = Return s
    /\ (1 ∈ index (linked s) <-> Drones.violated_pilot_id (drone r) <> None).
Proof.
  destruct (classification_rules (annotated [D1; D2; D3]) 1
              {| drone := D2; current_distance_from_nest_in_meter := 100 |})
    as [H _].
  - refine (bool_decide_unpack _ _); vm_compute; exact I.
  - vm_compute. apply list_elem_of_further, list_elem_of_here.
  - destruct H as (s & Hs & _ & _ & Hl); [vm_compute; reflexivity|].
    exists s. split; [exact Hs|exact Hl].
Defined.

(** D3 lies outside the circle and is put in [bad_currently_violating];
    moving it changes no set. *)
Lemma classification_reads_two_columns_witness :
  exists s1 s2,
    position_sets_of (annotated [D1; D2; D3]) = Return s1
    /\ position_sets_of (annotated [D1; D2; D3_moved]) = Return s2
    /\ (forall c, index (series c s1) = index (series c s2))
    /\ 2 ∈ index (currently_violating s1).
Proof.
  assert (H : Forall2 same_link_and_flag (annotated [D1; D2; D3])
                      (annotated [D1; D2; D3_moved])).
  { vm_compute. repeat constructor. }
  destruct (classification_reads_two_columns _ _ H) as (_ & Hs & _ & Hout).
  assert (H1 : position_sets_of (annotated [D1; D2; D3])
               = Return (selected_sets (annotated [D1; D2; D3])))
    by (vm_compute; reflexivity).
  assert (H2 : position_sets_of (annotated [D1; D2; D3_moved])
               = Return (selected_sets (annotated [D1; D2; D3_moved])))
    by (vm_compute; reflexivity).
  exists (selected_sets (annotated [D1; D2; D3])),
         (selected_sets (annotated [D1; D2; D3_moved])).
  split; [exact H1|]. split; [exact H2|]. split; [exact (Hs _ _ H1 H2)|].
  apply (Hout 2 {| drone := D3;
                   current_distance_from_nest_in_meter := geofence_distance 0 0 |}
              _).
  - refine (bool_decide_unpack _ _); vm_compute; exact I.
  - vm_compute.
    apply list_elem_of_further, list_elem_of_further, list_elem_of_here.
  - reflexivity.
  - reflexivity.
  - exact H1.
Defined.

(** ** Missing coordinates (lines 179-182) *)

Section MissingCoordinates.
Local Open Scope float_scope.

Lemma infer_float_float col f : infer_float col (PyFloat f) = PyFloat f.
Proof. reflexivity. Qed.

Lemma infer_float_None col :
  existsb is_float col = true -> infer_float col PyNone = PyFloat nan.
Proof. intros H. simpl. rewrite H. reflexivity. Qed.

Lemma infer_float_all_None col :
  existsb is_float col = false -> infer_float col PyNone = PyNone.
Proof. intros H. simpl. rewrite H. reflexivity. Qed.

Lemma distance_nan_l y :
  pow_overflows (y - 250000) = false ->
  distance_from_nest_in_meter (PyFloat nan) (PyFloat y) = Return nan.
Proof.
  intros Hy. rewrite distance_floats, Hy.
  change (pow_overflows (nan - 250000)) with false.
  simpl. rewrite geofence_distance_nan_l. reflexivity.
Qed.

Lemma distance_nan_r x :
  pow_overflows (x - 250000) = false ->
  distance_from_nest_in_meter (PyFloat x) (PyFloat nan) = Return nan.
Proof.
  intros Hx. rewrite distance_floats, Hx.
  change (pow_overflows (nan - 250000)) with false.
  simpl. rewrite geofence_distance_nan_r. reflexivity.
Qed.

(** The distance of a row of the frame built from records whose two
    coordinate columns hold a number each. *)
Lemma distance_of_inferred xs ys (d : Drones.t) :
  existsb is_float xs = true -> existsb is_float ys = true ->
  within_range CENTER_X (Drones.position_x d) = true ->
  within_range CENTER_Y (Drones.position_y d) = true ->
  distance_from_nest_in_meter (infer_float xs (Drones.position_x d))
                              (infer_float ys (Drones.position_y d))
  = Return (distance_or_missing d).
Proof.
  intros Hxs Hys Hx Hy. unfold distance_or_missing, within_range in *.
  rewrite ?float_of_int_CENTER_X, ?float_of_int_CENTER_Y in *.
  destruct (Drones.position_x d) as [|x], (Drones.position_y d) as [|y];
    rewrite ?infer_float_float, ?infer_float_None by assumption;
    try apply negb_true_iff in Hx; try apply negb_true_iff in Hy.
  - reflexivity.
  - apply distance_nan_l. exact Hy.
  - apply distance_nan_r. exact Hx.
  - rewrite distance_floats, Hx, Hy. reflexivity.
Qed.

Lemma Forall2_imap {A B : Type} (P : A -> B -> Prop) (h : A -> B)
    (lab : nat -> nat) (l : list A) :
  (forall a, a ∈ l -> P a (h a)) ->
  Forall2 (fun a r => P a r.2) l (imap (fun i a => (lab i, h a)) l).
Proof.
  revert lab. induction l as [|a l IH]; intros lab HP; simpl.
  - constructor.
  - constructor; [apply HP, list_elem_of_here|]. apply (IH (lab ∘ S)).
    intros b Hb. apply HP, list_elem_of_further, Hb.
Qed.

(** On a frame with a row the annotation is the row-wise application. *)
Lemma annotate_drones_rows (df : frame Drones.t) :
  df <> [] ->
  annotate_drones df
  = apply (fun row =>
             d ← distance_from_nest_in_meter (Drones.position_x row)
                                             (Drones.position_y row);
             Return {| drone := row;
                       current_distance_from_nest_in_meter := d |})
          df.
Proof. destruct df; [contradiction|reflexivity]. Qed.

Lemma imap_not_nil {A B : Type} (f : nat -> A -> B) (l : list A) :
  l <> [] -> imap f l <> [].
Proof. destruct l; [contradiction|discriminate]. Qed.

Lemma held_as_infer_float col v :
  existsb is_float col = true -> held_as v (infer_float col v).
Proof.
  intros H. destruct v; [|reflexivity].
  rewrite infer_float_None by exact H. reflexivity.
Qed.

(** In range, the expected distance of a position is the one shown. *)
Lemma distance_shown_in_range (x y : number) :
  within_range CENTER_X x = true -> within_range CENTER_Y y = true ->
  distance_shown x y (match x, y with
                      | PyFloat fx, PyFloat fy => geofence_distance fx fy
                      | _, _ => nan
                      end).
Proof.
  unfold within_range, distance_shown.
  rewrite float_of_int_CENTER_X, float_of_int_CENTER_Y.
  destruct x as [|fx], y as [|fy]; try reflexivity.
  intros Hx%negb_true_iff Hy%negb_true_iff.
  rewrite distance_floats, Hx, Hy. reflexivity.
Qed.

(** C6, where it fails: a result set whose only record has a NULL
    [position_x].  The column holds no number, the cell stays [None], and
    [None - CENTER_X] raises [TypeError]: the annotation, and with it the
    pass through the loop, ends there. *)
Lemma missing_coordinate_raises :
  annotate_drones (DataFrame_drones [D4]) = Raise TypeError
  /\ returns (annotate_drones (DataFrame_drones [D4])) = false.
Proof. split; vm_compute; reflexivity. Qed.

(** C6, amended.  When each of the two coordinate columns of the result set
    holds at least one number and the squared offsets of the numbers are in
    range, the annotation returns a frame with one row per record, in
    order; the frame holds a missing coordinate as nan and a present one as
    it is; a record with a missing coordinate gets the distance nan, and
    every other record the distance the function returns on its position.
    When the result set is not empty and no record has a [position_x], the
    annotation raises [TypeError]. *)
Theorem missing_coordinate_as_nan (drones : list Drones.t) :
  (existsb is_float (map Drones.position_x drones) = true ->
   existsb is_float (map Drones.position_y drones) = true ->
   forallb (fun d => within_range CENTER_X (Drones.position_x d)
                     && within_range CENTER_Y (Drones.position_y d))
           drones = true ->
   exists drones_df,
     annotate_drones (DataFrame_drones drones) = Return drones_df
     /\ index drones_df = seq 0 (length drones)
     /\ Forall2 (fun d r =>
          held_as (Drones.position_x d) (Drones.position_x (drone r.2))
          /\ held_as (Drones.position_y d) (Drones.position_y (drone r.2))
          /\ distance_shown (Drones.position_x d) (Drones.position_y d)
                            (current_distance_from_nest_in_meter r.2))
        drones drones_df)
  /\ (drones <> [] ->
      existsb is_float (map Drones.position_x drones) = false ->
      annotate_drones (DataFrame_drones drones) = Raise TypeError).
Proof.
  split.
  - intros Hxs Hys Hrange.
    assert (Hne : drones <> []) by (intros ->; discriminate Hxs).
    set (xs := map Drones.position_x drones) in *.
    set (ys := map Drones.position_y drones) in *.
    set (zs := map Drones.altitude drones).
    set (g := fun d : Drones.t =>
                Drones.with_floats (infer_float xs (Drones.position_x d))
                                   (infer_float ys (Drones.position_y d))
                                   (infer_float zs (Drones.altitude d)) d).
    set (h := fun d : Drones.t =>
                {| drone := g d;
                   current_distance_from_nest_in_meter :=
                     distance_or_missing d |}).
    assert (Hr : forall d, d ∈ drones ->
                   within_range CENTER_X (Drones.position_x d) = true
                   /\ within_range CENTER_Y (Drones.position_y d) = true).
    { intros d Hd. rewrite forallb_forall in Hrange.
      apply andb_true_iff, Hrange, list_elem_of_In, Hd. }
    exists (imap (fun i d => (i, h d)) drones).
    split; [|split].
    + unfold DataFrame_drones. fold xs ys zs.
      rewrite annotate_drones_rows by (apply imap_not_nil, Hne).
      apply (apply_imap _ g h (fun i => i) drones).
      intros d Hd. unfold g at 1 2. simpl.
      destruct (Hr d Hd) as [Hx Hy].
      rewrite (distance_of_inferred xs ys d Hxs Hys Hx Hy). reflexivity.
    + apply (index_imap h drones 0).
    + apply (Forall2_imap
               (fun d r =>
                  held_as (Drones.position_x d) (Drones.position_x (drone r))
                  /\ held_as (Drones.position_y d)
                             (Drones.position_y (drone r))
                  /\ distance_shown (Drones.position_x d)
                       (Drones.position_y d)
                       (current_distance_from_nest_in_meter r))
               h (fun i => i)).
      intros d Hd. destruct (Hr d Hd) as [Hx Hy]. simpl.
      split; [apply held_as_infer_float, Hxs|].
      split; [apply held_as_infer_float, Hys|].
      apply distance_shown_in_range; assumption.
  - intros Hne Hxs. destruct drones as [|d ds]; [contradiction|].
    rewrite annotate_drones_rows by (apply imap_not_nil; discriminate).
    unfold DataFrame_drones.
    set (xs := map Drones.position_x (d :: ds)) in *.
    assert (Hx : Drones.position_x d = PyNone).
    { simpl in Hxs. apply orb_false_iff in Hxs as [Hd _].
      destruct (Drones.position_x d); [reflexivity|discriminate Hd]. }
    cbn [imap apply]. cbn [Drones.position_x Drones.with_floats].
    rewrite Hx, infer_float_all_None by exact Hxs.
    reflexivity.
Qed.

Lemma missing_coordinate_as_nan_witness :
  exists drones_df,
    annotate_drones (DataFrame_drones [D4; D2]) = Return drones_df
    /\ index drones_df = [0; 1]%nat
    /\ Forall2 (fun d r =>
         held_as (Drones.position_x d) (Drones.position_x (drone r.2))
         /\ held_as (Drones.position_y d) (Drones.position_y (drone r.2))
         /\ distance_shown (Drones.position_x d) (Drones.position_y d)
                           (current_distance_from_nest_in_meter r.2))
       [D4; D2] drones_df.
Proof.
  apply (proj1 (missing_coordinate_as_nan [D4; D2])); vm_compute; reflexivity.
Defined.

End MissingCoordinates.

(** ** The memoised query layer *)

Section MemoFacts.
Local Open Scope Z_scope.
Implicit Types (st : state) (q : Query) (query : arg) (now : time) (db : store).

Lemma string_to_stmt_factory_member q :
  string_to_stmt_factory (Member q) = Return (stmt_of q).
Proof. destruct q; reflexivity. Qed.

Lemma string_to_stmt_factory_other query :
  query <> Member DRONES -> query <> Member PILOTS ->
  string_to_stmt_factory query = Raise (Exception "Invalid Query").
Proof.
  intros Hd Hp. unfold string_to_stmt_factory.
  destruct (decide (query = Member DRONES)); [contradiction|].
  destruct (decide (query = Member PILOTS)); [contradiction|].
  reflexivity.
Qed.

Lemma string_to_stmt_factory_Return query s :
  string_to_stmt_factory query = Return s -> exists q, query = Member q.
Proof.
  unfold string_to_stmt_factory.
  destruct (decide (query = Member DRONES)) as [->|]; [eauto|].
  destruct (decide (query = Member PILOTS)) as [->|]; [eauto|].
  discriminate.
Qed.

Lemma state_eta st : {| cache := cache st; executed := executed st |} = st.
Proof. destruct st. reflexivity. Qed.

(** A fresh entry is served: same value, state untouched. *)
Lemma run_query_hit now db query st e :
  cache st !! query = Some e -> now - captured_at e < ttl ->
  run_query now db query st = (Return (value e), st).
Proof.
  intros He Hf. unfold run_query. rewrite He. unfold fresh.
  destruct (Z.ltb_spec (now - captured_at e) ttl); [reflexivity|lia].
Qed.

(** Without a fresh entry the body runs: one read, the entry replaced. *)
Lemma run_query_rerun now db q st :
  stale now q st ->
  run_query now db (Member q) st
  = (Return (execute db (stmt_of q)), refreshed now db q st).
Proof.
  intros Hstale. unfold run_query, run_query_body.
  rewrite string_to_stmt_factory_member.
  destruct (cache st !! Member q) as [e|] eqn:He; [|reflexivity].
  unfold fresh. specialize (Hstale e He).
  destruct (Z.ltb_spec (now - captured_at e) ttl); [lia|reflexivity].
Qed.

Lemma refreshed_lookup now db q st :
  cache (refreshed now db q st) !! Member q
  = Some {| value := execute db (stmt_of q); captured_at := now |}.
Proof. simpl. apply lookup_insert_eq. Qed.

(** After a rerun at [now], calls until [now + ttl] (excluded) are hits. *)
Lemma run_query_after_refresh now db q st later db' :
  later - now < ttl ->
  run_query later db' (Member q) (refreshed now db q st)
  = (Return (execute db (stmt_of q)), refreshed now db q st).
Proof.
  intros Hl.
  apply (run_query_hit later db' _ _ _ (refreshed_lookup now db q st)).
  exact Hl.
Qed.

Lemma run_query_unrecognized_miss now db query st :
  query <> Member DRONES -> query <> Member PILOTS ->
  cache st !! query = None ->
  run_query now db query st = (Raise (Exception "Invalid Query"), st).
Proof.
  intros Hd Hp Hc. unfold run_query, run_query_body.
  rewrite Hc, string_to_stmt_factory_other by assumption.
  rewrite state_eta. reflexivity.
Qed.

(** A call adds no key but, possibly, a member of [Query]. *)
Lemma run_query_keys now db query st k :
  is_Some (cache (run_query now db query st).2 !! k) ->
  is_Some (cache st !! k) \/ exists q, k = Member q.
Proof.
  unfold run_query, run_query_body.
  destruct (cache st !! query) as [e|] eqn:He.
  - destruct (fresh now e); [auto|].
    destruct (string_to_stmt_factory query) eqn:Hf; simpl; auto.
    destruct (decide (query = k)) as [->|Hne].
    + rewrite He. eauto.
    + rewrite lookup_insert_ne by assumption. auto.
  - destruct (string_to_stmt_factory query) eqn:Hf; simpl; auto.
    destruct (decide (query = k)) as [->|Hne].
    + intros _. right. eapply string_to_stmt_factory_Return. exact Hf.
    + rewrite lookup_insert_ne by assumption. auto.
Qed.

(** The memo of a reachable state is keyed by members of [Query] only. *)
Lemma reachable_keys st k :
  reachable st -> is_Some (cache st !! k) -> exists q, k = Member q.
Proof.
  induction 1 as [|now db query st Hr IH]; intros Hk.
  - simpl in Hk. rewrite lookup_empty in Hk. destruct Hk as [? Hk]. discriminate.
  - apply run_query_keys in Hk as [Hk|Hk]; auto.
Qed.

(** C4: for a member of [Query], a call made while the stored snapshot is
    younger than 10 returns that snapshot and leaves memo and read log as
    they are; a call made when the snapshot is 10 or older reads the backing
    store once, returns what it read and replaces the entry; and of two
    calls less than 10 apart, the first of which reads, the second returns
    the same snapshot and the two together read once. *)
Theorem run_query_ttl now db q st :
  (forall e, cache st !! Member q = Some e -> now - captured_at e < 10 ->
     run_query now db (Member q) st = (Return (value e), st))
  /\ (forall e, cache st !! Member q = Some e -> 10 <= now - captured_at e ->
        run_query now db (Member q) st
        = (Return (execute db (stmt_of q)), refreshed now db q st)
        /\ cache (refreshed now db q st) !! Member q
           = Some {| value := execute db (stmt_of q); captured_at := now |}
        /\ executed (refreshed now db q st)
           = executed st ++ [(now, stmt_of q)])
  /\ (forall later db', stale now q st -> 0 <= later - now < 10 ->
        let first := run_query now db (Member q) st in
        let second := run_query later db' (Member q) first.2 in
        first.1 = Return (execute db (stmt_of q))
        /\ second.1 = first.1
        /\ executed second.2 = executed st ++ [(now, stmt_of q)]).
Proof.
  split; [|split].
  - intros e He Hf. apply (run_query_hit now db _ st e He). exact Hf.
  - intros e He Hf. split; [|split].
    + apply run_query_rerun. intros e' He'.
      rewrite He in He'. inversion He'; subst. exact Hf.
    + apply refreshed_lookup.
    + reflexivity.
  - intros later db' Hstale Hl. cbv zeta.
    rewrite (run_query_rerun now db q st Hstale). cbn [fst snd].
    rewrite run_query_after_refresh by (unfold ttl; lia).
    repeat split.
Qed.

Lemma run_query_ttl_witness :
  let first := run_query 100 a_store (Member DRONES) empty_state in
  let second :=
    run_query 103 {| drones := [D3]; violated_pilots := [] |}
              (Member DRONES) first.2 in
  first.1 = Return (DroneDicts [D1; D2])
  /\ second.1 = first.1
  /\ executed second.2 = [(100, select_Drones)].
Proof.
  refine (proj2 (proj2 (run_query_ttl 100 a_store DRONES empty_state))
            103 {| drones := [D3]; violated_pilots := [] |} _ _).
  - intros e He. simpl in He. rewrite lookup_empty in He. discriminate He.
  - simpl. lia.
Defined.

(** C5: in every reachable state, a call with anything but one of the two
    members of [Query] raises [Exception("Invalid Query")]; it returns no
    data, and memo and read log stay as they were. *)
Theorem invalid_query_fails now db query st :
  reachable st ->
  query <> Member DRONES -> query <> Member PILOTS ->
  run_query now db query st = (Raise (Exception "Invalid Query"), st).
Proof.
  intros Hr Hd Hp. apply run_query_unrecognized_miss; [assumption..|].
  destruct (cache st !! query) eqn:He; [|reflexivity].
  destruct (reachable_keys st query Hr) as [[] ->]; [eauto|contradiction..].
Qed.

Lemma invalid_query_fails_witness :
  let st := (run_query 0 a_store (Member DRONES) empty_state).2 in
  run_query 5 a_store (Str "drones") st
  = (Raise (Exception "Invalid Query"), st).
Proof.
  apply (invalid_query_fails 5 a_store (Str "drones")).
  - apply reachable_call, reachable_empty.
  - discriminate.
  - discriminate.
Defined.

(** C9, where it fails: with [ttl] 10, calls at times 0, 2 and 9.  The third
    call is 9 after the first, the snapshot is younger than 10 and is served
    again: its capture time is still 0, not a new one. *)
Lemma third_fetch_within_ttl :
  let st1 := (run_query 0 a_store (Member DRONES) empty_state).2 in
  let st2 := (run_query 2 a_store (Member DRONES) st1).2 in
  let st3 := (run_query 9 a_store (Member DRONES) st2).2 in
  ~ (snapshot_timestamp st2 (Member DRONES) = snapshot_timestamp st1 (Member DRONES)
     /\ snapshot_timestamp st3 (Member DRONES) <> snapshot_timestamp st1 (Member DRONES)).
Proof.
  assert (Hstale : stale 0 DRONES empty_state).
  { intros e He. simpl in He. rewrite lookup_empty in He. discriminate He. }
  cbv zeta. rewrite (run_query_rerun 0 a_store DRONES empty_state Hstale).
  cbn [fst snd].
  repeat (rewrite run_query_after_refresh by (unfold ttl; lia); cbn [fst snd]).
  intros [_ H]. apply H. reflexivity.
Qed.

(** C9, amended: with [ttl] 10, after a call that reads at [now], the calls
    made 2 and 9 later return the snapshot captured at [now], capture time
    unchanged; a call made 10 or more later returns a snapshot captured
    then. *)
Theorem fetch_timestamps now db1 db2 db3 db4 q st later :
  stale now q st -> 10 <= later - now ->
  let st1 := (run_query now db1 (Member q) st).2 in
  let st2 := (run_query (now + 2) db2 (Member q) st1).2 in
  let st3 := (run_query (now + 9) db3 (Member q) st2).2 in
  let st4 := (run_query later db4 (Member q) st3).2 in
  snapshot_timestamp st1 (Member q) = Some now
  /\ snapshot_timestamp st2 (Member q) = Some now
  /\ snapshot_timestamp st3 (Member q) = Some now
  /\ (run_query (now + 9) db3 (Member q) st2).1
     = (run_query now db1 (Member q) st).1
  /\ snapshot_timestamp st4 (Member q) = Some later
  /\ later <> now.
Proof.
  intros Hstale Hlater. cbv zeta.
  rewrite (run_query_rerun now db1 q st Hstale). cbn [fst snd].
  repeat (rewrite run_query_after_refresh by (unfold ttl; lia); cbn [fst snd]).
  assert (Hold : stale later q (refreshed now db1 q st)).
  { intros e He. rewrite refreshed_lookup in He. inversion He; subst.
    simpl. unfold ttl. lia. }
  rewrite (run_query_rerun later db4 q _ Hold). cbn [fst snd].
  unfold snapshot_timestamp. rewrite !refreshed_lookup. simpl.
  repeat split. lia.
Qed.

Lemma fetch_timestamps_witness :
  let st1 := (run_query 0 a_store (Member DRONES) empty_state).2 in
  let st2 := (run_query (0 + 2) a_store (Member DRONES) st1).2 in
  let st3 := (run_query (0 + 9) a_store (Member DRONES) st2).2 in
  let st4 := (run_query 10 a_store (Member DRONES) st3).2 in
  snapshot_timestamp st3 (Member DRONES) = Some 0
  /\ snapshot_timestamp st4 (Member DRONES) = Some 10.
Proof.
  assert (Hstale : stale 0 DRONES empty_state).
  { intros e He. simpl in He. rewrite lookup_empty in He. discriminate He. }
  assert (Hlater : 10 <= 10 - 0) by lia.
  destruct (fetch_timestamps 0 a_store a_store a_store a_store DRONES
              empty_state 10 Hstale Hlater) as (_ & _ & H3 & _ & H4 & _).
  split; [exact H3|exact H4].
Defined.

End MemoFacts.

(** * Further facts *)

(** ** The geofence calculator: sign, errors, symmetry *)

Section GeofenceMore.
Local Open Scope float_scope.

Lemma SF64sqrt_not_negative s : not_negative s -> not_negative (SF64sqrt s).
Proof.
  destruct s as [sg|sg| |sg m e]; simpl; intros H; subst;
    try exact I; try reflexivity.
  destruct (SFsqrt_core_binary prec emax (Z.pos m) e) as [[mz ez] lz].
  apply binary_round_aux_not_negative.
Qed.

Lemma SF64div_1000_not_negative s :
  not_negative s -> not_negative (SF64div s (Prim2SF 1000)).
Proof.
  change (Prim2SF 1000) with (S754_finite false 8796093022208000 (-43)).
  destruct s as [sg|sg| |sg m e]; simpl; intros H; subst;
    try exact I; try reflexivity.
  destruct (SFdiv_core_binary _ _ _ _ _ _) as [[mz ez] lz].
  apply binary_round_aux_not_negative.
Qed.

Lemma SF64add_comm s1 s2 : SF64add s1 s2 = SF64add s2 s1.
Proof.
  destruct s1 as [sg1|sg1| |sg1 m1 e1], s2 as [sg2|sg2| |sg2 m2 e2];
    simpl; try reflexivity.
  - destruct sg1, sg2; reflexivity.
  - destruct sg1, sg2; reflexivity.
  - rewrite (Z.min_comm e2 e1). f_equal. apply Z.add_comm.
Qed.

Lemma float_add_comm a b : a + b = b + a.
Proof. apply Prim2SF_inj. rewrite !add_spec. apply SF64add_comm. Qed.

Lemma geofence_distance_not_negative x y : (geofence_distance x y <? 0) = false.
Proof.
  apply not_negative_ltb_zero.
  unfold geofence_distance, euclidean_distance, center, scale_factor. simpl.
  rewrite div_spec. apply SF64div_1000_not_negative.
  rewrite sqrt_spec. apply SF64sqrt_not_negative.
  rewrite add_spec, !mul_spec.
  apply SF64add_not_negative; apply SF64mul_self_not_negative.
Qed.

(** What the function does on any two arguments. *)
Lemma distance_cases x y :
  distance_from_nest_in_meter x y =
  match x with
  | PyNone => Raise TypeError
  | PyFloat fx =>
      if pow_overflows (fx - 250000) then Raise OverflowError
      else match y with
           | PyNone => Raise TypeError
           | PyFloat fy =>
               if pow_overflows (fy - 250000) then Raise OverflowError
               else Return (geofence_distance fx fy)
           end
  end.
Proof.
  destruct x as [|fx]; [reflexivity|]. destruct y as [|fy].
  - unfold distance_from_nest_in_meter, sub_int.
    rewrite float_of_int_CENTER_X. cbn [mbind result_bind bind]. unfold pow2.
    destruct (pow_overflows (fx - 250000)); reflexivity.
  - apply distance_floats.
Qed.

Lemma distance_raises_only x y e :
  distance_from_nest_in_meter x y = Raise e ->
  e = TypeError \/ e = OverflowError.
Proof.
  rewrite distance_cases. destruct x as [|fx].
  { intros H. inversion H. auto. }
  destruct (pow_overflows (fx - 250000)).
  { intros H. inversion H. auto. }
  destruct y as [|fy].
  { intros H. inversion H. auto. }
  destruct (pow_overflows (fy - 250000)); [|discriminate].
  intros H. inversion H. auto.
Qed.

(** X1: a distance the function returns is never below zero. *)
Theorem distance_never_negative x y d :
  distance_from_nest_in_meter x y = Return d -> (d <? 0) = false.
Proof.
  rewrite distance_cases. destruct x as [|fx]; [discriminate|].
  destruct (pow_overflows (fx - 250000)); [discriminate|].
  destruct y as [|fy]; [discriminate|].
  destruct (pow_overflows (fy - 250000)); [discriminate|].
  intros H. apply Return_inj in H. subst d.
  apply geofence_distance_not_negative.
Qed.

Lemma distance_never_negative_witness :
  (geofence_distance 123456.75 0.5 <? 0) = false.
Proof.
  apply (distance_never_negative (PyFloat 123456.75) (PyFloat 0.5)).
  vm_compute. reflexivity.
Defined.

(** X2: the function raises nothing but [TypeError] and [OverflowError]:
    [TypeError] exactly when [x] is [None], or [y] is [None] and the square
    for [x] is in range; it returns exactly when both arguments are floats
    whose squares are in range.  The [ValueError] of [math.sqrt] and the
    [ZeroDivisionError] of [/] never occur. *)
Theorem distance_errors x y :
  (forall e, distance_from_nest_in_meter x y = Raise e ->
             e = TypeError \/ e = OverflowError)
  /\ (distance_from_nest_in_meter x y = Raise TypeError
      <-> x = PyNone \/ (y = PyNone /\ within_range CENTER_X x = true))
  /\ (returns (distance_from_nest_in_meter x y) = true
      <-> is_float x && is_float y
          && within_range CENTER_X x && within_range CENTER_Y y = true).
Proof.
  rewrite distance_cases. unfold within_range.
  rewrite float_of_int_CENTER_X, float_of_int_CENTER_Y.
  destruct x as [|fx]; simpl.
  { repeat split; try (intros; discriminate); auto.
    intros e H. inversion H. auto. }
  destruct (pow_overflows (fx - 250000)); simpl.
  { repeat split; try (intros; discriminate).
    - intros e H. inversion H. auto.
    - intros [H|[_ H]]; discriminate.
    - rewrite andb_false_r. discriminate. }
  destruct y as [|fy]; simpl.
  { repeat split; try (intros; discriminate); auto.
    intros e H. inversion H. auto. }
  destruct (pow_overflows (fy - 250000)); simpl.
  { repeat split; try (intros; discriminate).
    - intros e H. inversion H. auto.
    - intros [H|[H _]]; discriminate. }
  repeat split; try (intros; discriminate).
  intros [H|[H _]]; discriminate.
Qed.

(** X3: the centre lies on the diagonal ([CENTER_X = CENTER_Y]), so swapping
    the two coordinates of a position changes neither the distance nor the
    error. *)
Theorem distance_swap (x y : float) :
  distance_from_nest_in_meter (PyFloat x) (PyFloat y)
  = distance_from_nest_in_meter (PyFloat y) (PyFloat x).
Proof.
  rewrite !distance_floats.
  destruct (pow_overflows (x - 250000)), (pow_overflows (y - 250000));
    try reflexivity.
  unfold geofence_distance, euclidean_distance, center. simpl.
  rewrite (float_add_comm ((x - 250000) * (x - 250000))). reflexivity.
Qed.

End GeofenceMore.

(** ** Row-wise application and the two annotations *)

Section ApplyFacts.
Context {A B : Type}.
Implicit Types (f : A -> result B) (df : frame A) (out : frame B).

(** When [apply] returns, the rows of the result are the values of the
    function on the rows of the frame, under the same labels. *)
Lemma apply_Return f df out :
  apply f df = Return out ->
  Forall2 (fun r r' => r.1 = r'.1 /\ f r.2 = Return r'.2) df out.
Proof.
  revert out. induction df as [|[i r] df IH]; intros out; simpl.
  - intros H. apply Return_inj in H. subst out. constructor.
  - destruct (f r) as [v|e] eqn:Hf; cbn [mbind result_bind bind]; [|discriminate].
    destruct (apply f df) as [rest|e] eqn:Hrest; cbn [mbind result_bind bind];
      [|discriminate].
    intros H. apply Return_inj in H. subst out.
    constructor; [split; [reflexivity|exact Hf]|]. apply IH. reflexivity.
Qed.

(** [apply] raises exactly the exception of the first row on which the
    function raises. *)
Lemma apply_Raise f df e :
  apply f df = Raise e <->
  exists pre i r post,
    df = pre ++ (i, r) :: post
    /\ Forall (fun r' => returns (f r'.2) = true) pre
    /\ f r = Raise e.
Proof.
  induction df as [|[i r] df IH]; simpl.
  - split; [discriminate|]. intros (pre & j & s & post & H & _).
    destruct pre; discriminate.
  - destruct (f r) as [v|e'] eqn:Hf; cbn [mbind result_bind bind].
    + destruct (apply f df) as [rest|e'] eqn:Hrest; cbn [mbind result_bind bind].
      * split; [discriminate|]. intros (pre & j & s & post & H & Hpre & Hs).
        destruct pre as [|[k t] pre]; simpl in H; inversion H; subst.
        { rewrite Hf in Hs. discriminate. }
        apply Forall_cons in Hpre as [_ Hpre].
        assert (@Return (frame B) rest = Raise e) as Habs; [|discriminate Habs].
        apply IH. eauto 10.
      * split.
        -- intros H. inversion H; subst.
           destruct (proj1 IH eq_refl) as (pre & j & s & post & -> & Hpre & Hs).
           exists ((i, r) :: pre), j, s, post. repeat split; auto.
           constructor; [simpl; rewrite Hf; reflexivity|exact Hpre].
        -- intros (pre & j & s & post & H & Hpre & Hs).
           destruct pre as [|[k t] pre]; simpl in H; inversion H; subst.
           { rewrite Hf in Hs. discriminate. }
           apply Forall_cons in Hpre as [_ Hpre].
           f_equal. assert (Raise e' = @Raise (frame B) e) as Heq.
           { apply IH. eauto 10. }
           inversion Heq. reflexivity.
    + split.
      * intros H. inversion H; subst. exists [], i, r, df. repeat split; auto.
      * intros (pre & j & s & post & H & Hpre & Hs).
        destruct pre as [|[k t] pre]; simpl in H; inversion H; subst.
        -- rewrite Hf in Hs. inversion Hs. reflexivity.
        -- apply Forall_cons in Hpre as [Hr _]. simpl in Hr.
           rewrite Hf in Hr. discriminate.
Qed.

End ApplyFacts.

Section Annotations.

(** X4: when the annotation of lines 180-182 returns, the new frame has the
    labels of the old one in the same order, every record is carried over
    unchanged, and the distance of a row is the value the function returns
    on the row's own position. *)
Theorem annotate_drones_keeps_rows (df : frame Drones.t) (out : frame drones_row) :
  annotate_drones df = Return out ->
  index out = index df
  /\ columns drone out = df
  /\ Forall (fun r => distance_from_nest_in_meter
                        (Drones.position_x (drone r.2))
                        (Drones.position_y (drone r.2))
                      = Return (current_distance_from_nest_in_meter r.2)) out.
Proof.
  intros H.
  assert (Hne : df <> []) by (intros ->; discriminate H).
  rewrite annotate_drones_rows in H by exact Hne. clear Hne.
  apply apply_Return in H.
  assert (Hrows : Forall2 (fun r r' =>
            r.1 = r'.1
            /\ (drone r'.2 = r.2
                /\ distance_from_nest_in_meter (Drones.position_x r.2)
                     (Drones.position_y r.2)
                   = Return (current_distance_from_nest_in_meter r'.2))) df out).
  { eapply Forall2_impl; [exact H|]. intros [i r] [j r'] [Hi Hf]. simpl in *.
    split; [exact Hi|].
    destruct (distance_from_nest_in_meter _ _) as [d|e];
      cbn [mbind result_bind bind] in Hf; [|discriminate].
    apply Return_inj in Hf. subst r'. simpl. auto. }
  split; [|split].
  - clear H. unfold index.
    induction Hrows as [|[i r] [j r'] df out (Hi & _) _ IH]; [reflexivity|].
    simpl in *. subst. f_equal. exact IH.
  - clear H. unfold columns.
    induction Hrows as [|[i r] [j r'] df out (Hi & Hd & _) _ IH]; [reflexivity|].
    simpl in *. rewrite IH, Hi, Hd. reflexivity.
  - clear H.
    induction Hrows as [|[i r] [j r'] df out (Hi & Hd & Hf) _ IH]; constructor.
    + simpl in *. subst r. exact Hf.
    + exact IH.
Qed.

Lemma annotate_drones_keeps_rows_witness :
  index (annotated [D1; D2; D3]) = index (DataFrame_drones [D1; D2; D3])
  /\ columns drone (annotated [D1; D2; D3]) = DataFrame_drones [D1; D2; D3]
  /\ Forall (fun r => distance_from_nest_in_meter
                        (Drones.position_x (drone r.2))
                        (Drones.position_y (drone r.2))
                      = Return (current_distance_from_nest_in_meter r.2))
            (annotated [D1; D2; D3]).
Proof.
  apply (annotate_drones_keeps_rows (DataFrame_drones [D1; D2; D3])).
  vm_compute. reflexivity.
Defined.

Lemma returns_bind_Return {A B : Type} (m : result A) (k : A -> B) :
  returns (m ≫= fun d => Return (k d)) = returns m.
Proof. destruct m; reflexivity. Qed.

Lemma bind_Return_Raise {A B : Type} (m : result A) (k : A -> B) (e : exn) :
  m ≫= (fun d => Return (k d)) = Raise e <-> m = Raise e.
Proof.
  destruct m as [a|e']; cbn [mbind result_bind bind].
  - split; discriminate.
  - split; intros H; inversion H; reflexivity.
Qed.

(** X5: the annotation of lines 180-182 fails exactly when the frame has no
    row, with the [ValueError] of the column assignment, or the distance of
    some row fails; the exception is then that of the first such row, it is
    a [TypeError] or an [OverflowError], and no row after it is looked
    at. *)
Theorem annotate_drones_first_error (df : frame Drones.t) (e : exn) :
  annotate_drones df = Raise e <->
  (df = [] /\ e = ValueError)
  \/ exists pre i r post,
       df = pre ++ (i, r) :: post
       /\ Forall (fun r' => returns (distance_from_nest_in_meter
                                       (Drones.position_x r'.2)
                                       (Drones.position_y r'.2)) = true) pre
       /\ distance_from_nest_in_meter (Drones.position_x r) (Drones.position_y r)
          = Raise e
       /\ (e = TypeError \/ e = OverflowError).
Proof.
  destruct (decide (df = [])) as [->|Hne].
  { split.
    - intros H. left. split; [reflexivity|]. inversion H. reflexivity.
    - intros [[_ ->]|(pre & i & r & post & Hdf & _)]; [reflexivity|].
      destruct pre; discriminate Hdf. }
  rewrite annotate_drones_rows by exact Hne. rewrite apply_Raise. split.
  - intros (pre & i & r & post & Hdf & Hpre & Hr). right.
    exists pre, i, r, post. split; [exact Hdf|].
    apply bind_Return_Raise in Hr.
    split; [|split; [exact Hr|]].
    + eapply Forall_impl; [exact Hpre|]. intros [j s] H. simpl in *.
      rewrite returns_bind_Return in H. exact H.
    + eapply distance_raises_only. exact Hr.
  - intros [[Hdf _]|(pre & i & r & post & Hdf & Hpre & Hr & _)];
      [contradiction|].
    exists pre, i, r, post. split; [exact Hdf|]. split.
    + eapply Forall_impl; [exact Hpre|]. intros [j s] H. simpl in *.
      rewrite returns_bind_Return. exact H.
    + apply bind_Return_Raise. exact Hr.
Qed.

End Annotations.

Section PilotAnnotations.
Local Open Scope float_scope.

Lemma distance_of_inferred_pilot xs ys (x y : number) :
  existsb is_float xs = true -> existsb is_float ys = true ->
  within_range CENTER_X x = true -> within_range CENTER_Y y = true ->
  distance_from_nest_in_meter (infer_float xs x) (infer_float ys y)
  = Return (match x, y with
            | PyFloat fx, PyFloat fy => geofence_distance fx fy
            | _, _ => nan
            end).
Proof.
  intros Hxs Hys Hx Hy. unfold within_range in *.
  rewrite ?float_of_int_CENTER_X, ?float_of_int_CENTER_Y in *.
  destruct x as [|fx], y as [|fy];
    rewrite ?infer_float_float, ?infer_float_None by assumption;
    try apply negb_true_iff in Hx; try apply negb_true_iff in Hy.
  - reflexivity.
  - apply distance_nan_l. exact Hy.
  - apply distance_nan_r. exact Hx.
  - rewrite distance_floats, Hx, Hy. reflexivity.
Qed.

(** On a frame with a row the annotation is the two row-wise applications,
    one after the other. *)
Lemma annotate_pilots_rows (df : frame ViolatedPilots.t) :
  df <> [] ->
  annotate_pilots df
  = (df1 ← apply (fun row =>
                    d ← distance_from_nest_in_meter
                          (ViolatedPilots.last_violation_x row)
                          (ViolatedPilots.last_violation_y row);
                    Return (row, d))
                 df;
     apply (fun rd =>
              d ← distance_from_nest_in_meter
                    (ViolatedPilots.nearest_violation_x rd.1)
                    (ViolatedPilots.nearest_violation_y rd.1);
              Return {| pilot := rd.1;
                        last_violation_distance_in_meter := rd.2;
                        nearest_violation_distance_in_meter := d |})
           df1).
Proof. destruct df; [contradiction|reflexivity]. Qed.

(** X6: when the annotation of lines 195-201 returns, the new frame has the
    labels of the old one in the same order, every pilot record is carried
    over unchanged, and the two distances of a row are the values the
    function returns on the row's last and nearest violation positions. *)
Theorem annotate_pilots_keeps_rows (df : frame ViolatedPilots.t)
    (out : frame pilots_row) :
  annotate_pilots df = Return out ->
  index out = index df
  /\ columns pilot out = df
  /\ Forall (fun r =>
       distance_from_nest_in_meter
         (ViolatedPilots.last_violation_x (pilot r.2))
         (ViolatedPilots.last_violation_y (pilot r.2))
       = Return (last_violation_distance_in_meter r.2)
       /\ distance_from_nest_in_meter
            (ViolatedPilots.nearest_violation_x (pilot r.2))
            (ViolatedPilots.nearest_violation_y (pilot r.2))
          = Return (nearest_violation_distance_in_meter r.2)) out.
Proof.
  intros H.
  assert (Hne : df <> []) by (intros ->; discriminate H).
  rewrite annotate_pilots_rows in H by exact Hne. clear Hne. revert H.
  destruct (apply _ df) as [df1|e] eqn:H1; cbn [mbind result_bind bind];
    [|discriminate].
  intros H2. apply apply_Return in H1. apply apply_Return in H2.
  assert (Hrows : Forall2 (fun r r' =>
            r.1 = r'.1
            /\ pilot r'.2 = r.2
            /\ distance_from_nest_in_meter
                 (ViolatedPilots.last_violation_x r.2)
                 (ViolatedPilots.last_violation_y r.2)
               = Return (last_violation_distance_in_meter r'.2)
            /\ distance_from_nest_in_meter
                 (ViolatedPilots.nearest_violation_x r.2)
                 (ViolatedPilots.nearest_violation_y r.2)
               = Return (nearest_violation_distance_in_meter r'.2)) df out).
  { revert out H2.
    induction H1 as [|[i r] [j [r1 d1]] df df1 [Hi Hf] _ IH]; intros out H2.
    - inversion H2. constructor.
    - inversion H2 as [|? [k r'] ? out' [Hk Hg] Hrest]; subst.
      constructor; [|apply IH; exact Hrest].
      simpl in *.
      destruct (distance_from_nest_in_meter (ViolatedPilots.last_violation_x r) _)
        as [d|e] eqn:Hd; cbn [mbind result_bind bind] in Hf; [|discriminate].
      apply Return_inj in Hf. inversion Hf; subst r1 d1.
      destruct (distance_from_nest_in_meter (ViolatedPilots.nearest_violation_x r) _)
        as [d'|e] eqn:Hd'; cbn [mbind result_bind bind] in Hg; [|discriminate].
      apply Return_inj in Hg. subst r'. simpl. subst. auto. }
  clear H1 H2. split; [|split].
  - unfold index.
    induction Hrows as [|[i r] [j r'] df out (Hi & _) _ IH]; [reflexivity|].
    simpl in *. rewrite IH, Hi. reflexivity.
  - unfold columns.
    induction Hrows as [|[i r] [j r'] df out (Hi & Hp & _) _ IH]; [reflexivity|].
    simpl in *. rewrite IH, Hi, Hp. reflexivity.
  - induction Hrows as [|[i r] [j r'] df out (Hi & Hp & Hl & Hn) _ IH];
      constructor; [|exact IH].
    simpl in *. rewrite Hp. auto.
Qed.

Lemma annotate_pilots_keeps_rows_witness :
  exists out,
    annotate_pilots (DataFrame_pilots [P1; P2]) = Return out
    /\ index out = index (DataFrame_pilots [P1; P2])
    /\ columns pilot out = DataFrame_pilots [P1; P2].
Proof.
  destruct (annotate_pilots (DataFrame_pilots [P1; P2])) as [out|e] eqn:H.
  - exists out. split; [reflexivity|].
    destruct (annotate_pilots_keeps_rows _ out H) as (Hi & Hc & _).
    split; [exact Hi|exact Hc].
  - vm_compute in H. discriminate H.
Defined.

(** X7: when each of the four coordinate columns of the pilot result set
    holds at least one number (and the squared offsets of the numbers are in
    range), the annotation of lines 195-201 returns one row per record, in
    order; the frame holds a missing coordinate as nan; a record gets as
    last and as nearest violation distance what the function returns on the
    corresponding position, and nan when a coordinate of that position is
    missing. *)
Theorem annotate_pilots_missing_as_nan (pilots : list ViolatedPilots.t) :
  existsb is_float (map ViolatedPilots.last_violation_x pilots) = true ->
  existsb is_float (map ViolatedPilots.last_violation_y pilots) = true ->
  existsb is_float (map ViolatedPilots.nearest_violation_x pilots) = true ->
  existsb is_float (map ViolatedPilots.nearest_violation_y pilots) = true ->
  forallb pilot_within_range pilots = true ->
  exists pilots_df,
    annotate_pilots (DataFrame_pilots pilots) = Return pilots_df
    /\ index pilots_df = seq 0 (length pilots)
    /\ Forall2 (fun p r =>
         (held_as (ViolatedPilots.last_violation_x p)
                  (ViolatedPilots.last_violation_x (pilot r.2))
          /\ held_as (ViolatedPilots.last_violation_y p)
                     (ViolatedPilots.last_violation_y (pilot r.2))
          /\ held_as (ViolatedPilots.nearest_violation_x p)
                     (ViolatedPilots.nearest_violation_x (pilot r.2))
          /\ held_as (ViolatedPilots.nearest_violation_y p)
                     (ViolatedPilots.nearest_violation_y (pilot r.2)))
         /\ distance_shown (ViolatedPilots.last_violation_x p)
                           (ViolatedPilots.last_violation_y p)
                           (last_violation_distance_in_meter r.2)
         /\ distance_shown (ViolatedPilots.nearest_violation_x p)
                           (ViolatedPilots.nearest_violation_y p)
                           (nearest_violation_distance_in_meter r.2))
         pilots pilots_df.
Proof.
  intros Hlx Hly Hnx Hny Hrange.
  assert (Hne : pilots <> []) by (intros ->; discriminate Hlx).
  set (lxs := map ViolatedPilots.last_violation_x pilots) in *.
  set (lys := map ViolatedPilots.last_violation_y pilots) in *.
  set (nxs := map ViolatedPilots.nearest_violation_x pilots) in *.
  set (nys := map ViolatedPilots.nearest_violation_y pilots) in *.
  set (g := fun p : ViolatedPilots.t =>
              ViolatedPilots.with_floats
                (infer_float lxs (ViolatedPilots.last_violation_x p))
                (infer_float lys (ViolatedPilots.last_violation_y p))
                (infer_float nxs (ViolatedPilots.nearest_violation_x p))
                (infer_float nys (ViolatedPilots.nearest_violation_y p)) p).
  set (h1 := fun p : ViolatedPilots.t => (g p, last_distance_or_missing p)).
  set (h2 := fun p : ViolatedPilots.t =>
               {| pilot := g p;
                  last_violation_distance_in_meter := last_distance_or_missing p;
                  nearest_violation_distance_in_meter :=
                    nearest_distance_or_missing p |}).
  assert (Hr : forall p, p ∈ pilots -> pilot_within_range p = true).
  { intros p Hp. rewrite forallb_forall in Hrange.
    apply Hrange, list_elem_of_In, Hp. }
  exists (imap (fun i p => (i, h2 p)) pilots).
  split; [|split].
  - unfold DataFrame_pilots. fold lxs lys nxs nys.
    rewrite annotate_pilots_rows by (apply imap_not_nil, Hne).
    rewrite (apply_imap _ g h1 (fun i => i) pilots).
    + cbn [mbind result_bind bind].
      apply (apply_imap _ h1 h2 (fun i => i) pilots).
      intros p Hp. unfold h1 at 1 2 3. cbn [fst snd]. unfold g at 1 2. simpl.
      specialize (Hr p Hp). unfold pilot_within_range in Hr.
      apply andb_true_iff in Hr as [[[_ _]%andb_true_iff Hx]%andb_true_iff Hy].
      rewrite (distance_of_inferred_pilot nxs nys _ _ Hnx Hny Hx Hy).
      reflexivity.
    + intros p Hp. unfold g at 1 2. simpl.
      specialize (Hr p Hp). unfold pilot_within_range in Hr.
      apply andb_true_iff in Hr as [[[Hx Hy]%andb_true_iff _]%andb_true_iff _].
      rewrite (distance_of_inferred_pilot lxs lys _ _ Hlx Hly Hx Hy).
      reflexivity.
  - apply (index_imap h2 pilots 0).
  - apply (Forall2_imap
             (fun p r =>
                (held_as (ViolatedPilots.last_violation_x p)
                         (ViolatedPilots.last_violation_x (pilot r))
                 /\ held_as (ViolatedPilots.last_violation_y p)
                            (ViolatedPilots.last_violation_y (pilot r))
                 /\ held_as (ViolatedPilots.nearest_violation_x p)
                            (ViolatedPilots.nearest_violation_x (pilot r))
                 /\ held_as (ViolatedPilots.nearest_violation_y p)
                            (ViolatedPilots.nearest_violation_y (pilot r)))
                /\ distance_shown (ViolatedPilots.last_violation_x p)
                                  (ViolatedPilots.last_violation_y p)
                                  (last_violation_distance_in_meter r)
                /\ distance_shown (ViolatedPilots.nearest_violation_x p)
                                  (ViolatedPilots.nearest_violation_y p)
                                  (nearest_violation_distance_in_meter r))
             h2 (fun i => i)).
    intros p Hp. specialize (Hr p Hp). unfold pilot_within_range in Hr.
    apply andb_true_iff in Hr as [[[Hlx' Hly']%andb_true_iff Hnx']%andb_true_iff Hny'].
    simpl. split; [|split].
    + repeat split; apply held_as_infer_float; assumption.
    + apply distance_shown_in_range; assumption.
    + apply distance_shown_in_range; assumption.
Qed.

Lemma annotate_pilots_missing_as_nan_witness :
  exists pilots_df,
    annotate_pilots (DataFrame_pilots [P1; P2]) = Return pilots_df
    /\ index pilots_df = [0; 1]%nat
    /\ Forall2 (fun p r =>
         (held_as (ViolatedPilots.last_violation_x p)
                  (ViolatedPilots.last_violation_x (pilot r.2))
          /\ held_as (ViolatedPilots.last_violation_y p)
                     (ViolatedPilots.last_violation_y (pilot r.2))
          /\ held_as (ViolatedPilots.nearest_violation_x p)
                     (ViolatedPilots.nearest_violation_x (pilot r.2))
          /\ held_as (ViolatedPilots.nearest_violation_y p)
                     (ViolatedPilots.nearest_violation_y (pilot r.2)))
         /\ distance_shown (ViolatedPilots.last_violation_x p)
                           (ViolatedPilots.last_violation_y p)
                           (last_violation_distance_in_meter r.2)
         /\ distance_shown (ViolatedPilots.nearest_violation_x p)
                           (ViolatedPilots.nearest_violation_y p)
                           (nearest_violation_distance_in_meter r.2))
         [P1; P2] pilots_df.
Proof.
  apply (annotate_pilots_missing_as_nan [P1; P2]); vm_compute; reflexivity.
Defined.

End PilotAnnotations.

(** ** From the result set to the three sets (lines 179-213) *)

Section Pipeline.
Implicit Types (drones_df : frame drones_row).

(** The annotation keeps labels and records. *)
Lemma annotate_drones_records (df : frame Drones.t) (out : frame drones_row) :
  annotate_drones df = Return out ->
  Forall2 (fun ir ir' => ir.1 = ir'.1 /\ drone ir'.2 = ir.2) df out.
Proof.
  intros H.
  assert (Hne : df <> []) by (intros ->; discriminate H).
  rewrite annotate_drones_rows in H by exact Hne.
  apply apply_Return in H.
  eapply Forall2_impl; [exact H|]. intros [i r] [j r'] [Hi Hf]. simpl in *.
  split; [exact Hi|].
  destruct (distance_from_nest_in_meter _ _) as [d|e];
    cbn [mbind result_bind bind] in Hf; [|discriminate].
  apply Return_inj in Hf. subst r'. reflexivity.
Qed.

Lemma annotate_drones_index (df : frame Drones.t) (out : frame drones_row) :
  annotate_drones df = Return out -> index out = index df.
Proof.
  intros H. apply annotate_drones_records in H. unfold index.
  induction H as [|[i r] [j r'] df out [Hi _] _ IH]; [reflexivity|].
  simpl in *. rewrite IH, Hi. reflexivity.
Qed.

Lemma existsb_imap_flags (g : Drones.t -> Drones.t) (lab : nat -> nat)
    (drones : list Drones.t) :
  (forall d, Drones.is_violating_ndz (g d) = Drones.is_violating_ndz d) ->
  existsb (fun ir => isna (Drones.is_violating_ndz ir.2))
          (imap (fun i d => (lab i, g d)) drones)
  = existsb (fun d => isna (Drones.is_violating_ndz d)) drones.
Proof.
  intros Hg. revert lab.
  induction drones as [|d drones IH]; intros lab; [reflexivity|].
  simpl. rewrite Hg. f_equal. apply (IH (lab ∘ S)).
Qed.

(** The flag column of the annotated frame is that of the result set. *)
Lemma annotate_drones_flag_is_object (drones : list Drones.t) drones_df :
  annotate_drones (DataFrame_drones drones) = Return drones_df ->
  flag_is_object drones_df
  = existsb (fun d => isna (Drones.is_violating_ndz d)) drones.
Proof.
  intros H. apply annotate_drones_records in H.
  transitivity (existsb (fun ir => isna (Drones.is_violating_ndz ir.2))
                        (DataFrame_drones drones)).
  - unfold flag_is_object.
    induction H as [|[i r] [j r'] df out [_ Hd] _ IH]; [reflexivity|].
    simpl in *. rewrite IH, Hd. reflexivity.
  - unfold DataFrame_drones.
    apply (existsb_imap_flags _ (fun i => i)). reflexivity.
Qed.

Lemma length_index {A : Type} (df : frame A) : length (index df) = length df.
Proof. unfold index. apply length_map. Qed.

Lemma index_loc_mask_sublist {A : Type} (p : A -> bool) (df : frame A) :
  sublist (index (loc_mask p df)) (index df).
Proof.
  unfold index, loc_mask. induction df as [|[i r] df IH]; simpl.
  - constructor.
  - destruct (p r); simpl; [apply sublist_skip|apply sublist_cons]; exact IH.
Qed.

Lemma index_loc_mask_and_sublist {A : Type} (p q : A -> bool) (df : frame A) :
  sublist (index (loc_mask (fun r => p r && q r) df)) (index (loc_mask p df)).
Proof.
  unfold index, loc_mask. induction df as [|[i r] df IH]; simpl.
  - constructor.
  - destruct (p r), (q r); simpl;
      [apply sublist_skip|apply sublist_cons| |]; exact IH.
Qed.

(** Two masks that are each other's negation on the rows of the frame split
    the rows a third mask selects. *)
Lemma index_loc_mask_split {A : Type} (p q1 q2 : A -> bool) (df : frame A) :
  Forall (fun ir => q2 ir.2 = negb (q1 ir.2)) df ->
  index (loc_mask (fun r => p r && q1 r) df)
    ++ index (loc_mask (fun r => p r && q2 r) df)
  ≡ₚ index (loc_mask p df).
Proof.
  unfold index, loc_mask. induction 1 as [|[i r] df H _ IH]; [reflexivity|].
  simpl in *. rewrite H. destruct (p r), (q1 r); simpl.
  - constructor. exact IH.
  - rewrite <- IH. symmetry. apply Permutation_middle.
  - exact IH.
  - exact IH.
Qed.

Lemma index_loc_mask_complement {A : Type} (p : A -> bool) (df : frame A) :
  index (loc_mask p df) ++ index (loc_mask (fun r => negb (p r)) df)
  ≡ₚ index df.
Proof.
  unfold index, loc_mask. induction df as [|[i r] df IH]; [reflexivity|].
  simpl. destruct (p r); simpl.
  - constructor. exact IH.
  - rewrite <- IH. symmetry. apply Permutation_middle.
Qed.

Lemma index_bad_drones drones_df :
  index (bad_drones drones_df) = index (loc_mask unlinked drones_df).
Proof. unfold bad_drones. apply index_columns. Qed.

Lemma index_good_drones drones_df :
  index (good_drones drones_df)
  = index (loc_mask (fun r => negb (unlinked r)) drones_df).
Proof. unfold good_drones. apply index_columns. Qed.

Lemma bad_currently_violating_Return drones_df a :
  bad_currently_violating drones_df = Return a ->
  a = selected BadCurrentlyViolating drones_df.
Proof.
  rewrite bad_currently_violating_cases.
  destruct (flag_is_object drones_df).
  - destruct (existsb isna _); [discriminate|].
    destruct (bad_flags drones_df); [discriminate|].
    intros H. apply Return_inj in H. auto.
  - intros H. apply Return_inj in H. auto.
Qed.

Lemma bad_not_currently_violating_Return drones_df b :
  bad_not_currently_violating drones_df = Return b ->
  flag_is_object drones_df = false
  /\ b = selected BadNotCurrentlyViolating drones_df.
Proof.
  rewrite bad_not_currently_violating_cases.
  destruct (flag_is_object drones_df).
  - destruct (existsb isna _); discriminate.
  - intros H. apply Return_inj in H. auto.
Qed.

(** X8: for a drone result set without NULL flag whose annotation returns,
    the three sets are produced and split the records: the labels in the
    sets are 0, ..., n-1, each once, and the sizes of the sets add up to the
    number of records.  The annotation returns for no empty result set. *)
Theorem pipeline_partition (drones : list Drones.t) drones_df :
  forallb (fun d => negb (isna (Drones.is_violating_ndz d))) drones = true ->
  annotate_drones (DataFrame_drones drones) = Return drones_df ->
  drones <> []
  /\ exists s,
       position_sets_of drones_df = Return s
       /\ index (currently_violating s) ++ index (not_currently_violating s)
            ++ index (linked s) ≡ₚ seq 0 (length drones)
       /\ (length (currently_violating s) + length (not_currently_violating s)
           + length (linked s) = length drones)%nat.
Proof.
  intros Hflags H. split.
  { intros ->. discriminate H. }
  assert (Hobj : flag_is_object drones_df = false).
  { rewrite (annotate_drones_flag_is_object drones drones_df H).
    apply Bool.not_true_iff_false. intros [d [Hd Hna]]%existsb_exists.
    rewrite forallb_forall in Hflags. apply Hflags in Hd.
    rewrite Hna in Hd. discriminate Hd. }
  apply annotate_drones_index in H. rewrite DataFrame_drones_index in H.
  exists (selected_sets drones_df).
  split; [apply position_sets_of_bool, Hobj|].
  assert (Hperm : index (selected BadCurrentlyViolating drones_df)
                    ++ index (selected BadNotCurrentlyViolating drones_df)
                    ++ index (selected GoodDrones drones_df)
                  ≡ₚ seq 0 (length drones)).
  { rewrite <- H. apply selected_partition, Hobj. }
  split; [exact Hperm|].
  apply Permutation_length in Hperm.
  rewrite !length_app, !length_index, length_seq in Hperm. simpl. lia.
Qed.

Lemma pipeline_partition_witness :
  exists s,
    position_sets_of (annotated [D1; D2; D3]) = Return s
    /\ (length (currently_violating s) + length (not_currently_violating s)
        + length (linked s) = 3)%nat.
Proof.
  destruct (pipeline_partition [D1; D2; D3] (annotated [D1; D2; D3]))
    as (_ & s & Hs & _ & Hlen).
  - vm_compute. reflexivity.
  - vm_compute. reflexivity.
  - exists s. split; [exact Hs|exact Hlen].
Defined.

(** X9: [bad_drones] and [good_drones] split the frame and list their rows
    in the order of the frame; each of the two [bad_...] sets, when its
    selection returns, lists rows of [bad_drones] in that order; and when
    both selections return, the two sets split [bad_drones]. *)
Theorem bad_drones_split drones_df :
  index (bad_drones drones_df) ++ index (good_drones drones_df)
    ≡ₚ index drones_df
  /\ sublist (index (bad_drones drones_df)) (index drones_df)
  /\ sublist (index (good_drones drones_df)) (index drones_df)
  /\ (forall a, bad_currently_violating drones_df = Return a ->
        sublist (index a) (index (bad_drones drones_df)))
  /\ (forall b, bad_not_currently_violating drones_df = Return b ->
        sublist (index b) (index (bad_drones drones_df)))
  /\ (forall a b,
        bad_currently_violating drones_df = Return a ->
        bad_not_currently_violating drones_df = Return b ->
        index a ++ index b ≡ₚ index (bad_drones drones_df)).
Proof.
  rewrite index_bad_drones, index_good_drones.
  split; [apply index_loc_mask_complement|].
  split; [apply index_loc_mask_sublist|].
  split; [apply index_loc_mask_sublist|].
  split; [|split].
  - intros a ->%bad_currently_violating_Return.
    rewrite index_selected. apply index_loc_mask_and_sublist.
  - intros b [_ ->]%bad_not_currently_violating_Return.
    rewrite index_selected. apply index_loc_mask_and_sublist.
  - intros a b ->%bad_currently_violating_Return
      [Hobj ->]%bad_not_currently_violating_Return.
    rewrite !index_selected.
    apply (index_loc_mask_split unlinked (fun r => is_True (flag r))
                                (fun r => is_False (flag r))).
    apply Forall_forall. intros [i r] Hin.
    destruct (flag_is_object_false drones_df i r Hobj Hin) as [b Hb].
    simpl. rewrite Hb. destruct b; reflexivity.
Qed.

End Pipeline.

(** ** [highlight_not_null] *)

Section StylerFacts.
Implicit Types (s : Series cell) (column : list string) (l : string).

Lemma get_Some_label {A : Type} (s : Series A) l v :
  get s l = Some v -> l ∈ labels s.
Proof.
  unfold labels. induction s as [|[l' v'] s IH]; simpl; [discriminate|].
  destruct (String.eqb_spec l' l) as [->|Hne].
  - intros _. apply list_elem_of_here.
  - intros H. apply list_elem_of_further, IH, H.
Qed.

Lemma label_get_Some {A : Type} (s : Series A) l :
  l ∈ labels s -> exists v, get s l = Some v.
Proof.
  unfold labels. induction s as [|[l' v'] s IH]; simpl.
  - intros H. inversion H.
  - destruct (String.eqb_spec l' l) as [->|Hne]; [eauto|].
    intros [H|H]%elem_of_cons; [congruence|]. apply IH, H.
Qed.

(** [loc] succeeds exactly when the series has every label asked for, and
    then lists the values under them. *)
Lemma loc_Ok {A : Type} (s : Series A) column :
  (forall l, l ∈ column -> l ∈ labels s) ->
  exists selected,
    loc s column = Ok selected
    /\ Forall2 (fun l lv => lv.1 = l /\ get s l = Some lv.2) column selected.
Proof.
  induction column as [|l column IH]; intros Hin; simpl.
  - exists []. split; [reflexivity|constructor].
  - destruct (label_get_Some s l) as [v Hv]; [apply Hin, list_elem_of_here|].
    rewrite Hv.
    destruct IH as (rest & -> & Hrest).
    { intros l' Hl'. apply Hin, list_elem_of_further, Hl'. }
    exists ((l, v) :: rest). split; [reflexivity|].
    constructor; [split; [reflexivity|exact Hv]|exact Hrest].
Qed.

Lemma loc_KeyError {A : Type} (s : Series A) column :
  (exists l, loc s column = KeyError l)
  <-> exists l, l ∈ column /\ l ∉ labels s.
Proof.
  induction column as [|l column IH]; simpl.
  - split; [intros [l H]; discriminate|].
    intros (l & H & _). inversion H.
  - destruct (get s l) as [v|] eqn:Hv.
    + destruct (loc s column) as [rest|l'] eqn:Hloc.
      * split; [intros [l0 H]; discriminate|].
        intros (l0 & [->|H]%elem_of_cons & Hl0).
        -- destruct Hl0. eapply get_Some_label, Hv.
        -- assert (exists l1, @Ok (Series A) rest = KeyError l1) as [l1 Habs];
             [|discriminate Habs]. apply IH. eauto.
      * split; [|eauto].
        intros _. destruct (proj1 IH) as (l0 & H0 & H1); [eauto|].
        exists l0. split; [apply list_elem_of_further, H0|exact H1].
    + split; [|eauto]. intros _. exists l. split; [apply list_elem_of_here|].
      intros [v Hv']%label_get_Some. congruence.
Qed.

(** A series of flags computed from the labels of [s]. *)
Lemma set_label_flags {A : Type} (s : Series A) (h : string -> bool) l v :
  set_label l v (map (fun lv => (lv.1, h lv.1)) s)
  = map (fun lv => (lv.1, if String.eqb lv.1 l then v else h lv.1)) s.
Proof.
  unfold set_label. rewrite map_map. apply map_ext. intros [l' v']. simpl.
  destruct (String.eqb l' l); reflexivity.
Qed.

Lemma set_labels_flags {A : Type} (s : Series A) (g : string -> bool)
    (values : Series bool) (h : string -> bool) :
  (forall lv, lv ∈ values -> lv.2 = g lv.1) ->
  set_labels values (map (fun lv => (lv.1, h lv.1)) s)
  = map (fun lv => (lv.1, if bool_decide (lv.1 ∈ labels values)
                          then g lv.1 else h lv.1)) s.
Proof.
  unfold set_labels, labels. revert h.
  induction values as [|[l v] values IH]; intros h Hg; simpl.
  - reflexivity.
  - rewrite set_label_flags.
    rewrite (IH (fun l' => if String.eqb l' l then v else h l')).
    + apply map_ext. intros [l' v']. simpl. f_equal.
      assert (Hv : v = g l) by (apply (Hg (l, v)), list_elem_of_here).
      destruct (String.eqb_spec l' l) as [->|Hne].
      * rewrite (bool_decide_eq_true_2 (l ∈ l :: map fst values))
          by apply list_elem_of_here.
        rewrite <- Hv. destruct (bool_decide _); reflexivity.
      * rewrite (bool_decide_ext (l' ∈ l :: map fst values)
                                 (l' ∈ map fst values)); [reflexivity|].
        rewrite elem_of_cons. tauto.
    + intros lv Hlv. apply Hg, list_elem_of_further, Hlv.
Qed.

Lemma map_const_replicate {A B : Type} (b : B) (l : list A) :
  map (fun _ => b) l = replicate (length l) b.
Proof. induction l; simpl; [reflexivity|f_equal; assumption]. Qed.

(** X10: on a row that has every label of [column], [highlight_not_null]
    returns one style per cell of the row, the same for all cells: dark red
    when the cell under some label of [column] is not missing, the empty
    style otherwise. *)
Theorem highlight_not_null_style s column :
  NoDup (labels s) ->
  (forall l, l ∈ column -> l ∈ labels s) ->
  exists style,
    highlight_not_null s column = Ok (replicate (length s) style)
    /\ (style = darkred \/ style = ""%string)
    /\ (style = darkred
        <-> exists l c, l ∈ column /\ get s l = Some c /\ cell_isna c = false).
Proof.
  intros _ Hin. unfold highlight_not_null.
  destruct (loc_Ok s column Hin) as (selected & -> & Hsel).
  set (g := fun l => match get s l with
                     | Some c => negb (cell_isna c)
                     | None => false
                     end).
  rewrite (set_labels_flags s g _ (fun _ => false)).
  2:{ intros lv [[l c] [-> Hlc]]%list_elem_of_fmap. simpl.
      assert (Hget : get s l = Some c).
      { clear -Hsel Hlc. induction Hsel as [|l0 [l1 c1] ? ? [H1 H2] _ IH].
        - inversion Hlc.
        - apply elem_of_cons in Hlc as [Heq|Hlc]; [|apply IH, Hlc].
          inversion Heq; subst. simpl in *. subst. exact H2. }
      unfold g. rewrite Hget. reflexivity. }
  assert (Hlabels : labels (map (fun lv : string * cell =>
                                   (lv.1, negb (cell_isna lv.2))) selected)
                    = column).
  { unfold labels. rewrite map_map. simpl. clear -Hsel.
    induction Hsel as [|l [l' c] ? ? [H1 _] _ IH]; [reflexivity|].
    simpl in *. rewrite IH, H1. reflexivity. }
  rewrite Hlabels.
  set (flags := map _ s).
  exists (if existsb snd flags then darkred else ""%string).
  split; [|split].
  - f_equal. rewrite map_const_replicate. f_equal.
    unfold flags. apply length_map.
  - destruct (existsb snd flags); auto.
  - destruct (existsb snd flags) eqn:Hany.
    + split; [intros _|reflexivity].
      apply existsb_exists in Hany as [[l b] [Hl Hb]]. simpl in Hb. subst b.
      unfold flags in Hl. apply in_map_iff in Hl as [[l' c'] [Heq Hl']].
      simpl in Heq. inversion Heq as [[H1 H2]]. subst l'.
      case_bool_decide; [|discriminate].
      unfold g in H2. destruct (get s l) as [c|] eqn:Hget; [|discriminate].
      exists l, c. repeat split; auto. apply negb_true_iff. auto.
    + split; [discriminate|]. intros (l & c & Hl & Hget & Hna).
      exfalso. apply Bool.not_true_iff_false in Hany. apply Hany.
      apply existsb_exists.
      pose proof (Hin l Hl) as Hlab. unfold labels in Hlab.
      apply list_elem_of_fmap in Hlab as [[l' c'] [Hl' Hlc']].
      simpl in Hl'. subst l'.
      exists (l, true). split; [|reflexivity].
      unfold flags. apply in_map_iff. exists (l, c'). split.
      * simpl. rewrite bool_decide_eq_true_2 by exact Hl.
        unfold g. rewrite Hget, Hna. reflexivity.
      * apply list_elem_of_In, Hlc'.
Qed.

End StylerFacts.

Lemma highlight_not_null_style_witness :
  exists style,
    highlight_not_null
      (display_row {| drone := D2; current_distance_from_nest_in_meter := 100 |})
      ["violated_pilot_id"; "altitude"]%string
    = Ok (replicate 8 style)
    /\ (style = darkred \/ style = ""%string).
Proof.
  destruct (highlight_not_null_style
              (display_row
                 {| drone := D2; current_distance_from_nest_in_meter := 100 |})
              ["violated_pilot_id"; "altitude"]%string)
    as (style & H1 & H2 & _).
  - refine (bool_decide_unpack _ _); vm_compute; exact I.
  - intros l Hl. refine (bool_decide_unpack _ _).
    apply elem_of_cons in Hl as [->|Hl]; [vm_compute; exact I|].
    apply elem_of_cons in Hl as [->|Hl]; [vm_compute; exact I|].
    inversion Hl.
  - exists style. split; [exact H1|exact H2].
Defined.

Section StylerMore.

(** X11: [highlight_not_null] fails with a [KeyError] exactly when some
    label of [column] is not a label of the row. *)
Theorem highlight_not_null_KeyError (s : Series cell) (column : list string) :
  (exists l, highlight_not_null s column = KeyError l)
  <-> exists l, l ∈ column /\ l ∉ labels s.
Proof.
  rewrite <- loc_KeyError. unfold highlight_not_null.
  destruct (loc s column) as [selected|l].
  - split; intros [l H]; discriminate.
  - split; intros _; eauto.
Qed.

Lemma row_style_cases (r : drones_row) :
  row_style r
  = Ok (replicate 8 (if isna (Drones.violated_pilot_id (drone r))
                     then ""%string else darkred)).
Proof.
  unfold row_style, highlight_not_null, display_row.
  destruct (Drones.violated_pilot_id (drone r)); reflexivity.
Qed.

(** X12: in the "Drones" tab a row is painted dark red, all eight cells of
    it, exactly when the drone is in [good_drones], and is left unpainted
    exactly when it is not. *)
Theorem row_style_good_drones (drones_df : frame drones_row) i r :
  NoDup (index drones_df) -> (i, r) ∈ drones_df ->
  (row_style r = Ok (replicate 8 darkred)
     <-> i ∈ index (good_drones drones_df))
  /\ (row_style r = Ok (replicate 8 ""%string)
        <-> i ∉ index (good_drones drones_df)).
Proof.
  intros Hnd Hir.
  pose proof (elem_of_index_selected GoodDrones drones_df i r Hnd Hir) as Hgood.
  change (selected GoodDrones drones_df) with (good_drones drones_df) in Hgood.
  simpl in Hgood. rewrite Hgood. rewrite row_style_cases.
  unfold unlinked. destruct (isna (Drones.violated_pilot_id (drone r))); simpl;
    intuition (try discriminate; try congruence).
Qed.

Lemma row_style_good_drones_witness :
  row_style {| drone := D2; current_distance_from_nest_in_meter := 100 |}
  = Ok (replicate 8 darkred)
  <-> 1%nat ∈ index (good_drones (annotated [D1; D2; D3])).
Proof.
  refine (proj1 (row_style_good_drones (annotated [D1; D2; D3]) 1 _ _ _)).
  - refine (bool_decide_unpack _ _); vm_compute; exact I.
  - vm_compute. apply list_elem_of_further, list_elem_of_here.
Defined.

End StylerMore.

(** ** The query layer under sequences of calls *)

Section MemoRuns.
Local Open Scope Z_scope.
Implicit Types (st : state) (q : Query) (query : arg) (now : time) (db : store).

Lemma stmt_of_inj q q' : stmt_of q = stmt_of q' -> q = q'.
Proof. destruct q, q'; simpl; congruence. Qed.

(** The three things a call can do to the state. *)
Lemma run_query_state now db query st :
  (run_query now db query st).2 = st
  \/ exists q, query = Member q
               /\ (forall e, cache st !! Member q = Some e ->
                             ttl <= now - captured_at e)
               /\ run_query now db query st
                  = (Return (execute db (stmt_of q)), refreshed now db q st).
Proof.
  unfold run_query, run_query_body.
  destruct (cache st !! query) as [e|] eqn:He.
  - destruct (fresh now e) eqn:Hfresh; [left; reflexivity|].
    destruct (string_to_stmt_factory query) as [s|ex] eqn:Hf.
    + right. destruct (string_to_stmt_factory_Return query s Hf) as [q ->].
      exists q. rewrite string_to_stmt_factory_member in Hf.
      inversion Hf; subst s. split; [reflexivity|]. split; [|reflexivity].
      intros e' He'. rewrite He in He'. inversion He'; subst e'.
      unfold fresh in Hfresh. apply Z.ltb_ge in Hfresh. exact Hfresh.
    + left. simpl. apply state_eta.
  - destruct (string_to_stmt_factory query) as [s|ex] eqn:Hf.
    + right. destruct (string_to_stmt_factory_Return query s Hf) as [q ->].
      exists q. rewrite string_to_stmt_factory_member in Hf.
      inversion Hf; subst s. split; [reflexivity|]. split; [|reflexivity].
      intros e' He'. rewrite He in He'. discriminate He'.
    + left. simpl. apply state_eta.
Qed.

(** X13: a call of [run_query] leaves the entries of all other arguments as
    they are, and appends to the read log nothing or one read made now. *)
Theorem run_query_touches_own_entry now db query st :
  (forall k, k <> query ->
             cache (run_query now db query st).2 !! k = cache st !! k)
  /\ (executed (run_query now db query st).2 = executed st
      \/ exists s, executed (run_query now db query st).2
                   = executed st ++ [(now, s)]).
Proof.
  destruct (run_query_state now db query st) as [->|(q & -> & _ & ->)].
  - split; auto.
  - split.
    + intros k Hk. simpl. apply lookup_insert_ne. congruence.
    + right. exists (stmt_of q). reflexivity.
Qed.

Lemma memo_inv_empty T : memo_inv T [] empty_state.
Proof.
  split; simpl.
  - intros t s H. inversion H.
  - intros q e H. rewrite lookup_empty in H. discriminate.
  - intros q _ t H. inversion H.
  - intros i j t1 t2 s _ H. rewrite lookup_nil in H. discriminate.
Qed.

Lemma memo_inv_same T T' hist c st :
  T <= T' -> memo_inv T hist st -> memo_inv T' (hist ++ [c]) st.
Proof.
  intros HT [Hle Hentry Hno Hsp]. split; auto.
  - intros t s H. specialize (Hle t s H). lia.
  - intros q e He. destruct (Hentry q e He) as (H1 & H2 & db & H3 & H4).
    repeat split; auto. exists db. split; [|exact H4].
    apply elem_of_app. left. exact H3.
Qed.

Lemma memo_inv_refreshed T hist now db q st :
  T <= now -> memo_inv T hist st ->
  (forall e, cache st !! Member q = Some e -> ttl <= now - captured_at e) ->
  memo_inv now (hist ++ [(now, db, Member q)]) (refreshed now db q st).
Proof.
  intros HT [Hle Hentry Hno Hsp] Hstale. split; simpl.
  - intros t s [H|H]%elem_of_app.
    + specialize (Hle t s H). lia.
    + apply list_elem_of_singleton in H. inversion H. lia.
  - intros q' e He. destruct (decide (q' = q)) as [->|Hne].
    + rewrite lookup_insert_eq in He. inversion He; subst e. simpl.
      split; [apply elem_of_app; right; apply list_elem_of_here|].
      split.
      * intros t [H|H]%elem_of_app.
        -- specialize (Hle _ _ H). lia.
        -- apply list_elem_of_singleton in H. inversion H. lia.
      * exists db. split; [|reflexivity].
        apply elem_of_app. right. apply list_elem_of_here.
    + rewrite lookup_insert_ne in He by congruence.
      destruct (Hentry q' e He) as (H1 & H2 & db' & H3 & H4).
      split; [apply elem_of_app; left; exact H1|]. split.
      * intros t [H|H]%elem_of_app; [apply H2, H|].
        apply list_elem_of_singleton in H. inversion H as [[Ht Hs]].
        apply stmt_of_inj in Hs. congruence.
      * exists db'. split; [|exact H4]. apply elem_of_app. left. exact H3.
  - intros q' He t [H|H]%elem_of_app.
    + destruct (decide (q' = q)) as [->|Hne].
      * rewrite lookup_insert_eq in He. discriminate.
      * rewrite lookup_insert_ne in He by congruence. exact (Hno q' He t H).
    + apply list_elem_of_singleton in H. inversion H as [[Ht Hs]].
      apply stmt_of_inj in Hs. subst q'.
      rewrite lookup_insert_eq in He. discriminate.
  - intros i j t1 t2 s Hij Hi Hj.
    assert (Hlen : (j < length (executed st ++ [(now, stmt_of q)]))%nat)
      by (eapply lookup_lt_Some; exact Hj).
    rewrite length_app in Hlen. simpl in Hlen.
    destruct (decide (j < length (executed st))%nat) as [Hj'|Hj'].
    + rewrite lookup_app_l in Hi by lia. rewrite lookup_app_l in Hj by lia.
      exact (Hsp i j t1 t2 s Hij Hi Hj).
    + assert (j = length (executed st)) as -> by lia.
      rewrite lookup_app_l in Hi by lia.
      rewrite list_lookup_middle in Hj by reflexivity.
      inversion Hj; subst t2 s.
      assert (Hin : (t1, stmt_of q) ∈ executed st)
        by (eapply list_elem_of_lookup_2; exact Hi).
      destruct (cache st !! Member q) as [e|] eqn:He.
      * destruct (Hentry q e He) as (_ & H2 & _).
        specialize (H2 t1 Hin). specialize (Hstale e eq_refl). lia.
      * destruct (Hno q He t1 Hin).
Qed.

(** One call keeps the invariant. *)
Lemma memo_inv_call T hist now db query st :
  T <= now -> memo_inv T hist st ->
  memo_inv now (hist ++ [(now, db, query)]) (run_query now db query st).2.
Proof.
  intros HT Hinv.
  destruct (run_query_state now db query st) as [->|(q & -> & Hstale & ->)].
  - apply (memo_inv_same T); assumption.
  - apply (memo_inv_refreshed T); assumption.
Qed.

Lemma memo_inv_run calls T hist st :
  clock_ok T calls = true -> memo_inv T hist st ->
  exists T', memo_inv T' (hist ++ calls) (run_calls calls st).2.
Proof.
  revert T hist st. induction calls as [|[[now db] query] calls IH];
    intros T hist st Hclock Hinv; simpl.
  - exists T. rewrite app_nil_r. exact Hinv.
  - simpl in Hclock. apply andb_true_iff in Hclock as [HT%Z.leb_le Hclock].
    destruct (IH now (hist ++ [(now, db, query)])
                (run_query now db query st).2 Hclock) as [T' HT'].
    { apply (memo_inv_call T); assumption. }
    exists T'. rewrite <- app_assoc in HT'. exact HT'.
Qed.

(** X14: whatever the calls, as long as the clock does not go back, two
    reads of the same relation are at least 10 apart: the backing store
    sees each statement at most once per [ttl]. *)
Theorem reads_at_least_ttl_apart (t0 : time) (calls : list call)
    (i j : nat) (t1 t2 : time) (s : stmt) :
  clock_ok t0 calls = true ->
  (i < j)%nat ->
  executed (run_calls calls empty_state).2 !! i = Some (t1, s) ->
  executed (run_calls calls empty_state).2 !! j = Some (t2, s) ->
  10 <= t2 - t1.
Proof.
  intros Hclock Hij Hi Hj.
  destruct (memo_inv_run calls t0 [] empty_state Hclock (memo_inv_empty t0))
    as [T' [_ _ _ Hsp]].
  exact (Hsp i j t1 t2 s Hij Hi Hj).
Qed.

End MemoRuns.

Lemma reads_at_least_ttl_apart_witness : (10 <= 12 - 0)%Z.
Proof.
  apply (reads_at_least_ttl_apart 0%Z (passes 5 0%Z 3%Z a_store) 0%nat 2%nat
           0%Z 12%Z select_Drones);
    [vm_compute; reflexivity | lia | vm_compute; reflexivity
     | vm_compute; reflexivity].
Defined.

Section MemoFreshness.
Local Open Scope Z_scope.

(** What a call for a member returns, in a state that satisfies the
    invariant. *)
Lemma run_query_served T hist now db q st :
  T <= now -> memo_inv T hist st ->
  exists v t db',
    (run_query now db (Member q) st).1 = Return v
    /\ (t, db', Member q) ∈ hist ++ [(now, db, Member q)]
    /\ 0 <= now - t < ttl
    /\ v = execute db' (stmt_of q).
Proof.
  intros HT Hinv.
  destruct (cache st !! Member q) as [e|] eqn:He.
  - destruct (Z.lt_ge_cases (now - captured_at e) ttl) as [Hfresh|Hstale].
    + rewrite (run_query_hit now db _ st e He Hfresh). simpl.
      destruct (inv_entry _ _ _ Hinv q e He) as (Hlog & _ & db' & Hhist & Hv).
      pose proof (inv_log_le _ _ _ Hinv _ _ Hlog) as Hle.
      exists (value e), (captured_at e), db'. repeat split; auto; try lia.
      apply elem_of_app. left. exact Hhist.
    + rewrite run_query_rerun.
      * exists (execute db (stmt_of q)), now, db. simpl. repeat split.
        -- apply elem_of_app. right. apply list_elem_of_here.
        -- lia.
        -- unfold ttl. lia.
      * intros e' He'. rewrite He in He'. inversion He'; subst. exact Hstale.
  - rewrite run_query_rerun.
    + exists (execute db (stmt_of q)), now, db. simpl. repeat split.
      * apply elem_of_app. right. apply list_elem_of_here.
      * lia.
      * unfold ttl. lia.
    + intros e' He'. rewrite He in He'. discriminate He'.
Qed.

Lemma run_calls_served calls T hist st k now db q :
  clock_ok T calls = true -> memo_inv T hist st ->
  calls !! k = Some (now, db, Member q) ->
  exists v t db',
    (run_calls calls st).1 !! k = Some (Return v)
    /\ (t, db', Member q) ∈ hist ++ take (S k) calls
    /\ 0 <= now - t < ttl
    /\ v = execute db' (stmt_of q).
Proof.
  revert T hist st k. induction calls as [|[[now0 db0] query0] calls IH];
    intros T hist st k Hclock Hinv Hk; [discriminate|].
  simpl in Hclock. apply andb_true_iff in Hclock as [HT%Z.leb_le Hclock].
  destruct k as [|k]; simpl in Hk.
  - inversion Hk; subst now0 db0 query0.
    destruct (run_query_served T hist now db q st HT Hinv)
      as (v & t & db' & Hv & Hin & Ht & Hval).
    exists v, t, db'. simpl. rewrite Hv. repeat split; auto; lia.
  - destruct (IH now0 (hist ++ [(now0, db0, query0)])
                (run_query now0 db0 query0 st).2 k Hclock)
      as (v & t & db' & Hv & Hin & Ht & Hval); [|exact Hk|].
    { apply (memo_inv_call T); assumption. }
    exists v, t, db'. simpl. repeat split; auto; try lia.
    rewrite <- app_assoc in Hin. exact Hin.
Qed.

(** X15: as long as the clock does not go back, every call for a member of
    [Query] returns, and what it returns is what one of the calls made so
    far, less than 10 before it, read from the store: a snapshot served is
    never as old as [ttl]. *)
Theorem served_snapshot_is_fresh (t0 : time) (calls : list call) (k : nat)
    (now : time) (db : store) (q : Query) :
  clock_ok t0 calls = true ->
  calls !! k = Some (now, db, Member q) ->
  exists v t db',
    (run_calls calls empty_state).1 !! k = Some (Return v)
    /\ (t, db', Member q) ∈ take (S k) calls
    /\ 0 <= now - t < 10
    /\ v = execute db' (stmt_of q).
Proof.
  intros Hclock Hk.
  exact (run_calls_served calls t0 [] empty_state k now db q Hclock
           (memo_inv_empty t0) Hk).
Qed.

Lemma served_snapshot_is_fresh_witness :
  exists v t db',
    (run_calls (passes 5 0 3 a_store) empty_state).1 !! 6%nat = Some (Return v)
    /\ (t, db', Member DRONES) ∈ take 7 (passes 5 0 3 a_store)
    /\ 0 <= 9 - t < 10
    /\ v = execute db' (stmt_of DRONES).
Proof.
  apply (served_snapshot_is_fresh 0 (passes 5 0 3 a_store) 6 9 a_store DRONES);
    vm_compute; reflexivity.
Defined.

End MemoFreshness.

(** ** [string_to_stmt_factory] and [init_connection] *)

Section FactoryAndConnection.


Lemma append_assoc (a b c : string) : ((a +:+ b) +:+ c = a +:+ (b +:+ c))%string.
Proof.
  induction a as [|ch a IH]; [reflexivity|].
  change (String ch ((a +:+ b) +:+ c) = String ch (a +:+ (b +:+ c)))%string.
  f_equal. exact IH.
Qed.

(** X17: the connection URL is put together without quoting: a colon moved
    from the end of the user name to the start of the password gives the
    same URL, so the URL does not determine the credentials it was built
    from. *)
Theorem url_not_injective (u a b h p d : string) :
  Connection.url {| Connection.user := u +:+ ":" +:+ a;
                    Connection.password := b;
                    Connection.host := h;
                    Connection.port := p;
                    Connection.dbname := d |}
  = Connection.url {| Connection.user := u;
                      Connection.password := a +:+ ":" +:+ b;
                      Connection.host := h;
                      Connection.port := p;
                      Connection.dbname := d |}.
Proof.
  unfold Connection.url.
  cbn [Connection.user Connection.password Connection.host Connection.port
       Connection.dbname].
  rewrite !append_assoc. reflexivity.
Qed.

End FactoryAndConnection.
